(** * dhi-node-resty-workshop: the demo API server and the image scan script

    A shallow embedding of [app/src/server.ts] (two Express route handlers and
    the helper [getCurrencyForLocale]) and of [scripts/scan-image.sh] (a
    sequential shell script run under [set -euo pipefail]).

    What the runtime provides and the repository only calls is kept apart from
    the repository's own code: the internationalisation routines
    ([Intl.DateTimeFormat], [Intl.NumberFormat]), the process environment and
    the clock are parameters of the handlers; [docker], [trivy], [grep] and
    [lsb_release] are parameters of the script. *)

From stdpp Require Import gmap strings list pretty.
From Stdlib Require Import ZArith Lia Ascii.

Local Open Scope string_scope.
Local Open Scope list_scope.
Local Open Scope Z_scope.

(** ** JavaScript values met by the handlers *)

Module JS.

(** The result of a property read [obj[key]] on an object literal: an own
    string-valued property, a member inherited from [Object.prototype] (a
    function, or the prototype object itself for [__proto__]), or
    [undefined]. *)
Inductive value : Type :=
  | Undefined
  | Str (s : string)
  | Inherited (name : string).

#[global] Instance value_eq_dec : EqDecision value.
Proof. solve_decision. Defined.

(** ToBoolean: [undefined] and the empty string are falsy; functions and
    objects are truthy. *)
Definition truthy (v : value) : bool :=
  match v with
  | Undefined => false
  | Str s => bool_decide (s ≠ "")
  | Inherited _ => true
  end.

(** [a || b] *)
Definition or_else (a b : value) : value :=
  if truthy a then a else b.

(** [(q as string) || d] for a query parameter [q : string | undefined]; the
    cast is erased at run time, so the test is plain truthiness. *)
Definition or_default (q : option string) (d : string) : string :=
  match q with
  | Some s => if bool_decide (s ≠ "") then s else d
  | None => d
  end.

(** The names every ordinary object inherits from [Object.prototype]. *)
Definition ObjectPrototype : list string :=
  [ "constructor"; "__defineGetter__"; "__defineSetter__"; "hasOwnProperty";
    "__lookupGetter__"; "__lookupSetter__"; "isPrototypeOf";
    "propertyIsEnumerable"; "toString"; "valueOf"; "__proto__";
    "toLocaleString" ].

(** [obj[key]] for an object literal whose own properties are [own]: own
    properties first, then the prototype chain. *)
Definition get (own : gmap string string) (key : string) : value :=
  match own !! key with
  | Some s => Str s
  | None => if bool_decide (key ∈ ObjectPrototype) then Inherited key else Undefined
  end.

(** What a [catch] clause can receive. *)
Inductive thrown : Type :=
  | ErrorInstance (message : string)
  | NotAnError (as_string : string).

(** [error instanceof Error ? error.message : String(error)] *)
Definition message_of (error : thrown) : string :=
  match error with
  | ErrorInstance message => message
  | NotAnError as_string => as_string
  end.

(** JSON documents as [res.json] receives them. *)
#[warnings="-register-all"]
Inductive json : Type :=
  | JString (s : string)
  | JObject (fields : list (string * json)).

Definition keys (j : json) : list string :=
  match j with
  | JString _ => []
  | JObject fields => fields.*1
  end.

Fixpoint assoc (k : string) (fields : list (string * json)) : option json :=
  match fields with
  | [] => None
  | (k', v) :: rest => if bool_decide (k = k') then Some v else assoc k rest
  end.

Definition field (k : string) (j : json) : option json :=
  match j with
  | JString _ => None
  | JObject fields => assoc k fields
  end.

End JS.

(** ** The runtime's [Date]: time values, [toISOString] and [Date.parse]

    A time value is a number of milliseconds since 1970-01-01T00:00:00Z, as
    ECMA-262 defines it (days of exactly 86,400,000 ms, proleptic Gregorian
    calendar, no leap seconds). *)

Module Date.

Definition msPerDay : Z := 86400000.
Definition msPerHour : Z := 3600000.
Definition msPerMinute : Z := 60000.
Definition msPerSecond : Z := 1000.

(** The largest magnitude of a time value (TimeClip). *)
Definition maxTime : Z := 8640000000000000.

Definition valid (t : Z) : Prop := - maxTime <= t <= maxTime.

Definition InLeapYear (y : Z) : bool :=
  (y mod 4 =? 0) && (negb (y mod 100 =? 0) || (y mod 400 =? 0)).

Definition DaysInYear (y : Z) : Z := if InLeapYear y then 366 else 365.

(** Day number of January 1st of year [y]. *)
Definition DayFromYear (y : Z) : Z :=
  365 * (y - 1970) + (y - 1969) / 4 - (y - 1901) / 100 + (y - 1601) / 400.

Definition monthLengths (y : Z) : list Z :=
  [31; if InLeapYear y then 29 else 28; 31; 30; 31; 30; 31; 31; 30; 31; 30; 31].

(** Walk forward from January 1st of [y], [d >= 0] days away. *)
Fixpoint yearUp (fuel : nat) (y d : Z) : Z * Z :=
  match fuel with
  | O => (y, d)
  | S fuel' =>
      if d <? DaysInYear y then (y, d)
      else yearUp fuel' (y + 1) (d - DaysInYear y)
  end.

(** Walk backward from January 1st of [y], [d < 0] days away. *)
Fixpoint yearDown (fuel : nat) (y d : Z) : Z * Z :=
  match fuel with
  | O => (y, d)
  | S fuel' =>
      if 0 <=? d then (y, d)
      else yearDown fuel' (y - 1) (d + DaysInYear (y - 1))
  end.

(** The year holding day number [day], and the day within that year. *)
Definition yearAndDay (day : Z) : Z * Z :=
  if 0 <=? day then yearUp (Z.to_nat (day / 365 + 1)) 1970 day
  else yearDown (Z.to_nat ((- day) / 365 + 1)) 1970 day.

(** The month (from 0) holding day [d] of the year, and the day within it
    (from 0). *)
Fixpoint monthAndDate (lengths : list Z) (m d : Z) : Z * Z :=
  match lengths with
  | [] => (m, d)
  | len :: rest => if d <? len then (m, d) else monthAndDate rest (m + 1) (d - len)
  end.

Definition digit (n : Z) : ascii := ascii_of_nat (48 + Z.to_nat n).

(** [n] in decimal on exactly [k] digits, most significant first. *)
Fixpoint pad (k : nat) (n : Z) : string :=
  match k with
  | O => ""
  | S k' => String (digit ((n / 10 ^ Z.of_nat k') mod 10)) (pad k' n)
  end.

Definition yearString (y : Z) : string :=
  if (0 <=? y) && (y <=? 9999) then pad 4 y
  else (if 0 <=? y then "+" else "-") +:+ pad 6 (Z.abs y).

(** [Date.prototype.toISOString] on a valid time value:
    [YYYY-MM-DDTHH:mm:ss.sssZ], the year widened to a sign and six digits
    outside 0..9999. *)
Definition toISOString (t : Z) : string :=
  let day := t / msPerDay in
  let tod := t mod msPerDay in
  let '(y, doy) := yearAndDay day in
  let '(m, d) := monthAndDate (monthLengths y) 0 doy in
  yearString y +:+ "-" +:+ pad 2 (m + 1) +:+ "-" +:+ pad 2 (d + 1) +:+ "T"
    +:+ pad 2 (tod / msPerHour) +:+ ":"
    +:+ pad 2 (tod mod msPerHour / msPerMinute) +:+ ":"
    +:+ pad 2 (tod mod msPerMinute / msPerSecond) +:+ "."
    +:+ pad 3 (tod mod msPerSecond) +:+ "Z".

(** Reading: a small parser over the remaining input. *)
Definition digitValue (c : ascii) : option Z :=
  let n := Z.of_nat (nat_of_ascii c) in
  if (48 <=? n) && (n <=? 57) then Some (n - 48) else None.

Fixpoint digits (k : nat) (acc : Z) (s : string) : option (Z * string) :=
  match k with
  | O => Some (acc, s)
  | S k' =>
      match s with
      | String c rest =>
          match digitValue c with
          | Some v => digits k' (10 * acc + v) rest
          | None => None
          end
      | EmptyString => None
      end
  end.

Definition expect (c : ascii) (s : string) : option string :=
  match s with
  | String c' rest => if bool_decide (c = c') then Some rest else None
  | EmptyString => None
  end.

Definition year (s : string) : option (Z * string) :=
  match s with
  | String "+" rest => digits 6 0 rest
  | String "-" rest =>
      match digits 6 0 rest with
      | Some (y, rest') => if y =? 0 then None else Some (- y, rest')
      | None => None
      end
  | _ => digits 4 0 s
  end.

Definition MakeDay (y m d : Z) : Z :=
  DayFromYear y + foldr Z.add 0 (take (Z.to_nat m) (monthLengths y)) + d - 1.

Definition MakeTime (h mi s ms : Z) : Z :=
  h * msPerHour + mi * msPerMinute + s * msPerSecond + ms.

Definition MakeDate (day time : Z) : Z := day * msPerDay + time.

(** [Date.parse] on the complete date-time form with the UTC designator;
    [None] stands for NaN (ill-formed text, a field out of range, or a time
    value beyond [maxTime]). *)
Definition parse (s : string) : option Z :=
  '(y, s) ← year s;
  s ← expect "-" s;
  '(m, s) ← digits 2 0 s;
  s ← expect "-" s;
  '(d, s) ← digits 2 0 s;
  s ← expect "T" s;
  '(h, s) ← digits 2 0 s;
  s ← expect ":" s;
  '(mi, s) ← digits 2 0 s;
  s ← expect ":" s;
  '(sec, s) ← digits 2 0 s;
  s ← expect "." s;
  '(ms, s) ← digits 3 0 s;
  s ← expect "Z" s;
  if bool_decide (s = "") then
    match monthLengths y !! Z.to_nat (m - 1) with
    | Some len =>
        let t := MakeDate (MakeDay y (m - 1) d) (MakeTime h mi sec ms) in
        if (1 <=? m) && (1 <=? d) && (d <=? len) && (h <=? 23) && (mi <=? 59)
           && (sec <=? 59) && (Z.abs t <=? maxTime)
        then Some t else None
    | None => None
    end
  else None.

End Date.

(** ** app/src/server.ts *)

Module Server.
Import JS.

(** The argument of [.format(12345.67)], as a decimal: mantissa and number of
    fractional digits. *)
Record decimal : Type := Decimal { mantissa : Z; fraction_digits : nat }.

Definition demoAmount : decimal := Decimal 1234567 2.

(** Calls into the internationalisation library, in the order made. *)
Inductive call : Type :=
  | DateTimeFormat (locale tz : string) (now : Z)
  | NumberFormat (locale : string) (currency : value) (amount : decimal).

(** What the runtime supplies to a request: the two formatting routines (each
    returns the formatted text or throws), the process environment variable
    [NODE_ICU_DATA], and the clock read by [new Date()]. *)
Record runtime : Type := Runtime {
  formatDateTime : string → string → Z → thrown + string;
  formatNumber : string → value → decimal → thrown + string;
  NODE_ICU_DATA : option string;
  now : Z
}.

(** [req.query], as the handler types it: each parameter is a string or is
    missing. *)
Record Request : Type := { query : gmap string string }.

Record Response : Type := { status : Z; body : json }.

(** [res.json(obj)] with the default status, and [res.status(c).json(obj)]. *)
Definition json_response (obj : json) : Response := {| status := 200; body := obj |}.
Definition status_json_response (c : Z) (obj : json) : Response :=
  {| status := c; body := obj |}.

(** Helper function to get currency code from locale. *)
Definition currencyMap : gmap string string :=
  list_to_map
    [ ("en-US", "USD"); ("en-GB", "GBP"); ("fr-FR", "EUR"); ("de-DE", "EUR");
      ("ja-JP", "JPY"); ("zh-CN", "CNY"); ("es-ES", "EUR"); ("it-IT", "EUR");
      ("pt-BR", "BRL"); ("ko-KR", "KRW") ].

Definition getCurrencyForLocale (locale : string) : value :=
  or_else (get currencyMap locale) (Str "USD").

(** The body of a [try] block: the calls made so far, and either the thrown
    value or the result. *)
Definition attempt (A : Type) : Type := list call * (thrown + A).

#[global] Instance attempt_ret : MRet attempt := λ A a, ([], inr a).

#[global] Instance attempt_bind : MBind attempt := λ A B k m,
  match m with
  | (log, inl e) => (log, inl e)
  | (log, inr a) => let '(log', r) := k a in (log ++ log', r)
  end.

Definition invoke (c : call) (outcome : thrown + string) : attempt string :=
  ([c], outcome).

(** [try { body } catch (error) { handler }] *)
Definition try_catch {A} (body : attempt A) (handler : thrown → A) : list call * A :=
  match body with
  | (log, inl error) => (log, handler error)
  | (log, inr a) => (log, a)
  end.

Section handlers.
Context (rt : runtime).

(** Health check endpoint. *)
Definition api_health (_req : Request) : Response :=
  json_response
    (JObject [ ("status", JString "ok");
               ("timestamp", JString (Date.toISOString (now rt))) ]).

(** Time formatting endpoint. *)
Definition api_time (req : Request) : list call * Response :=
  let locale := or_default (query req !! "locale") "en-US" in
  let tz := or_default (query req !! "tz") "UTC" in
  try_catch
    ( let now := now rt in
      formatted ← invoke (DateTimeFormat locale tz now)
                         (formatDateTime rt locale tz now);
      let currency := getCurrencyForLocale locale in
      numberFormatted ← invoke (NumberFormat locale currency demoAmount)
                               (formatNumber rt locale currency demoAmount);
      mret (json_response
             (JObject [ ("locale", JString locale);
                        ("tz", JString tz);
                        ("formatted", JString formatted);
                        ("numberExample", JString numberFormatted);
                        ("timestamp", JString (Date.toISOString now));
                        ("icuDataPath",
                          JString (or_default (NODE_ICU_DATA rt) "built-in")) ])) )
    (λ error,
      status_json_response 400
        (JObject [ ("error", JString "Invalid locale or timezone");
                   ("message", JString (message_of error)) ])).

End handlers.

(** A request carrying the given query parameters. *)
Definition request (locale tz : option string) : Request :=
  {| query := from_option (λ l, {["locale" := l]}) ∅ locale
              ∪ from_option (λ z, {["tz" := z]}) ∅ tz |}.

(** The locale and time zone a request is served with. *)
Definition effective_locale (req : Request) : string :=
  or_default (query req !! "locale") "en-US".
Definition effective_tz (req : Request) : string :=
  or_default (query req !! "tz") "UTC".

(** The failure of the formatting routine on a locale and time zone, if it
    fails: the date formatter is tried first, the number formatter second. *)
Definition formatting_failure (rt : runtime) (locale tz : string) : option thrown :=
  match formatDateTime rt locale tz (now rt) with
  | inl error => Some error
  | inr _ =>
      match formatNumber rt locale (getCurrencyForLocale locale) demoAmount with
      | inl error => Some error
      | inr _ => None
      end
  end.

(** A thrown value that says something: an [Error] whose message is not
    empty, or another value whose string form is not empty. *)
Definition described (e : thrown) : Prop :=
  match e with
  | ErrorInstance message => message ≠ ""
  | NotAnError as_string => as_string ≠ ""
  end.

(** What is assumed of the internationalisation library: text it produces is
    not empty, and what it throws says something. *)
Record Intl_conforms (rt : runtime) : Prop := {
  formatted_nonempty : ∀ l z t f, formatDateTime rt l z t = inr f → f ≠ "";
  number_nonempty : ∀ l c a n, formatNumber rt l c a = inr n → n ≠ "";
  date_error_described : ∀ l z t e, formatDateTime rt l z t = inl e → described e;
  number_error_described : ∀ l c a e, formatNumber rt l c a = inl e → described e
}.

(** A locale and time zone the library supports, whatever the handler does
    with them: the date formatter accepts the pair, and the number formatter
    accepts the locale with each of the seven currency codes of the map. *)
Definition supported (rt : runtime) (locale tz : string) : Prop :=
  (∃ formatted, formatDateTime rt locale tz (now rt) = inr formatted)
  ∧ ∀ code,
      code ∈ ["USD"; "GBP"; "EUR"; "JPY"; "CNY"; "BRL"; "KRW"] →
      ∃ text, formatNumber rt locale (Str code) demoAmount = inr text.

(** A small stand-in for the library, to run the handlers on: three locales,
    two time zones, ISO currency codes only. *)
Definition demo : runtime := {|
  formatDateTime l z t :=
    if bool_decide (l ∈ ["en-US"; "ja-JP"; "valueOf"]) then
      if bool_decide (z ∈ ["UTC"; "Asia/Tokyo"])
      then inr ("[" +:+ l +:+ "] " +:+ Date.toISOString t +:+ " " +:+ z)
      else inl (ErrorInstance ("Invalid time zone specified: " +:+ z))
    else inl (ErrorInstance "Incorrect locale information provided");
  formatNumber l c a :=
    match c with
    | Str code => inr ("12,345.67 " +:+ code)
    | _ => inl (ErrorInstance "Invalid currency code")
    end;
  NODE_ICU_DATA := None;
  now := 1705314600000
|}.

(** [const PORT = 3000]. *)
Definition PORT : Z := 3000.

(** The callback of [app.listen]: the three lines it logs, given
    [process.version]. *)
Definition listening (rt : runtime) (version : string) : list string :=
  [ "Server running on port " +:+ pretty PORT;
    "ICU data path: " +:+ or_default (NODE_ICU_DATA rt) "built-in";
    "Node version: " +:+ version ].

End Server.

(** ** scripts/scan-image.sh *)

Module Scan.

(** An external program and its arguments. *)
Inductive command : Type := Cmd (program : string) (args : list string).

(** What the script does that can be seen from outside: [echo] (with or
    without [-e]) of an argument, and running an external program. *)
Inductive event : Type :=
  | Echo (e : bool) (text : string)
  | Run (c : command).

(** The machine the script runs on, over an abstract state [W]: which
    programs [command -v] finds, what running a program does (exit status,
    lines written, next state), and which files exist. *)
Record system (W : Type) : Type := System {
  on_path : W → string → bool;
  exec : command → W → Z * list string * W;
  files : W → gset string
}.
Arguments on_path {W}. Arguments exec {W}. Arguments files {W}.

Inductive outcome (A : Type) : Type :=
  | Done (a : A)
  | Exited (code : Z).
Arguments Done {A}. Arguments Exited {A}.

(** A piece of script: from a machine state to the events produced, the
    outcome and the next state. *)
Definition sh (W A : Type) : Type := W → list event * outcome A * W.

#[global] Instance sh_ret {W} : MRet (sh W) := λ A a w, ([], Done a, w).

#[global] Instance sh_bind {W} : MBind (sh W) := λ A B k m w,
  match m w with
  | (t, Exited c, w') => (t, Exited c, w')
  | (t, Done a, w') => let '(t', r, w'') := k a w' in (t ++ t', r, w'')
  end.

Definition RED : string := "\033[0;31m".
Definition GREEN : string := "\033[0;32m".
Definition YELLOW : string := "\033[1;33m".
Definition BLUE : string := "\033[0;34m".
Definition CYAN : string := "\033[0;36m".
Definition NC : string := "\033[0m".

(** [grep -E "(Digest|Status|Image is up to date)"]: the matching lines, and
    status 0 when there is one, 1 otherwise. *)
Definition contains (needle line : string) : bool :=
  bool_decide (is_Some (String.index 0 needle line)).

Definition grep_pull (lines : list string) : Z * list string :=
  let hits :=
    filter (λ l, contains "Digest" l || contains "Status" l
                 || contains "Image is up to date" l) lines in
  (if bool_decide (hits = []) then 1 else 0, hits).

(** [c || true]: the status of [c] when that is 0, else the status of
    [true]. *)
Definition or_true (status : Z) : Z := if status =? 0 then status else 0.

Section script.
Context {W : Type} (sys : system W).

Definition echo (text : string) : sh W unit := λ w, ([Echo false text], Done (), w).
Definition echo_e (text : string) : sh W unit := λ w, ([Echo true text], Done (), w).
Definition exit {A} (code : Z) : sh W A := λ w, ([], Exited code, w).
Definition command_v (name : string) : sh W bool := λ w, ([], Done (on_path sys w name), w).

(** Run a program; its status and output come back to the script. *)
Definition run (c : command) : sh W (Z * list string) := λ w,
  let '(st, out, w') := exec sys c w in ([Run c], Done (st, out), w').

(** A simple command under [set -e]: a non-zero status ends the script with
    that status. *)
Definition simple (c : command) : sh W unit :=
  '(st, _) ← run c;
  if st =? 0 then mret () else exit st.

(** [$(c)] inside the argument of another command: the output, whatever the
    status. *)
Definition substitute (c : command) : sh W string :=
  '(_, out) ← run c;
  mret (String.concat (String "010" "") out).

(** A pure filter at the end of a pipeline: it is run, and its status and
    output are those the filter computes from what is piped in. *)
Definition filter_through (c : command) (result : Z * list string) :
    sh W (Z * list string) := λ w, ([Run c], Done result, w).

(** [docker pull "$IMAGE" 2>&1 | grep -E "(...)" || true] under [pipefail]:
    the status of the pipeline is the last non-zero status among its parts,
    and the list [pipeline || true] is what [set -e] looks at. *)
Definition pull (IMAGE : string) : sh W unit :=
  '(st, out) ← run (Cmd "docker" ["pull"; IMAGE]);
  '(gst, _) ← filter_through
                (Cmd "grep" ["-E"; "(Digest|Status|Image is up to date)"])
                (grep_pull out);
  let pipeline := if gst =? 0 then st else gst in
  let status := or_true pipeline in
  if status =? 0 then mret () else exit status.

Definition trivy_json (OUTPUT_FILE IMAGE : string) : command :=
  Cmd "trivy" ["image"; "--severity"; "HIGH,CRITICAL"; "--no-progress";
               "--format"; "json"; "-o"; OUTPUT_FILE; IMAGE].

Definition trivy_table (IMAGE : string) : command :=
  Cmd "trivy" ["image"; "--severity"; "HIGH,CRITICAL"; "--no-progress";
               "--format"; "table"; IMAGE].

Definition rule : string := CYAN +:+ "=================================================" +:+ NC.

(** Check if Trivy is installed. *)
Definition check_trivy : sh W unit :=
  installed ← command_v "trivy";
  if negb installed then
    echo_e (RED +:+ "Error: Trivy is not installed" +:+ NC);;
    echo "";;
    echo "Install Trivy:";;
    echo "  macOS:   brew install aquasecurity/trivy/trivy";;
    echo "  Linux:   wget -qO - https://aquasecurity.github.io/trivy-repo/deb/public.key | sudo apt-key add -";;
    codename ← substitute (Cmd "lsb_release" ["-sc"]);
    echo ("           echo 'deb https://aquasecurity.github.io/trivy-repo/deb "
            +:+ codename +:+ " main' | sudo tee -a /etc/apt/sources.list.d/trivy.list");;
    echo "           sudo apt-get update && sudo apt-get install trivy";;
    echo "  Docker:  docker run --rm -v /var/run/docker.sock:/var/run/docker.sock aquasec/trivy image <image>";;
    exit 1
  else mret ().

(** Check if image name is provided. *)
Definition check_image (argv0 : string) (args : list string) : sh W unit :=
  if bool_decide (length args = 0%nat) then
    echo_e (RED +:+ "Error: No image name provided" +:+ NC);;
    echo "";;
    echo ("Usage: " +:+ argv0 +:+ " <image-name> [output-file]");;
    echo "";;
    echo "Examples:";;
    echo ("  " +:+ argv0 +:+ " node:20-bookworm");;
    echo ("  " +:+ argv0 +:+ " demonstrationorg/dhi-node:22-alpine3.22");;
    echo ("  " +:+ argv0 +:+ " dhi-workshop-app-dhi trivy-doi-results.json");;
    exit 1
  else mret ().

Definition announce (IMAGE : string) : sh W unit :=
  echo_e rule;;
  echo_e (CYAN +:+ "    Scanning Image: " +:+ IMAGE +:+ NC);;
  echo_e rule;;
  echo "".

(** Pull the image if it's not local. *)
Definition ensure_local (IMAGE : string) : sh W unit :=
  echo_e (YELLOW +:+ "Ensuring image is available locally..." +:+ NC);;
  pull IMAGE;;
  echo "".

(** Scan with Trivy. *)
Definition scan (IMAGE OUTPUT_FILE : string) : sh W unit :=
  echo_e (YELLOW +:+ "Running Trivy scan (HIGH and CRITICAL vulnerabilities)..." +:+ NC);;
  echo "";;
  if bool_decide (OUTPUT_FILE ≠ "") then
    echo_e (BLUE +:+ "Saving results to: " +:+ OUTPUT_FILE +:+ NC);;
    echo "";;
    simple (trivy_json OUTPUT_FILE IMAGE);;
    simple (trivy_table IMAGE);;
    echo "";;
    echo_e (GREEN +:+ "Results saved to: " +:+ OUTPUT_FILE +:+ NC)
  else
    simple (trivy_table IMAGE).

(** Additional information. *)
Definition finish (IMAGE : string) : sh W unit :=
  echo "";;
  echo_e rule;;
  echo_e (GREEN +:+ "Scan complete!" +:+ NC);;
  echo_e rule;;
  echo "";;
  echo_e (BLUE +:+ "Additional scan options:" +:+ NC);;
  echo "";;
  echo_e (GREEN +:+ "Save results to file (JSON):" +:+ NC);;
  echo ("  trivy image --severity HIGH,CRITICAL --format json -o trivy-results.json " +:+ IMAGE);;
  echo "";;
  echo_e (GREEN +:+ "Save results to file (Table):" +:+ NC);;
  echo ("  trivy image --severity HIGH,CRITICAL --format table -o trivy-results.txt " +:+ IMAGE);;
  echo "";;
  echo_e (GREEN +:+ "Include MEDIUM severity:" +:+ NC);;
  echo ("  trivy image --severity MEDIUM,HIGH,CRITICAL " +:+ IMAGE);;
  echo "";;
  echo_e (GREEN +:+ "Generate SARIF output for GitHub Actions:" +:+ NC);;
  echo ("  trivy image --format sarif -o trivy-results.sarif " +:+ IMAGE);;
  echo "";;
  echo_e (GREEN +:+ "Compare with Docker Scout (save to file):" +:+ NC);;
  echo "  docker scout compare --to node:20-bookworm demonstrationorg/dhi-node:22-alpine3.22 --format markdown > scout-comparison.md";;
  echo "".

(** The script, run as [argv0 args...]: [IMAGE="$1"], and
    [OUTPUT_FILE="${2:-}"] is the second argument, or empty without one. *)
Definition scan_image (argv0 : string) (args : list string) : sh W unit :=
  check_trivy;;
  check_image argv0 args;;
  let IMAGE := default "" (args !! 0%nat) in
  let OUTPUT_FILE := default "" (args !! 1%nat) in
  announce IMAGE;;
  ensure_local IMAGE;;
  scan IMAGE OUTPUT_FILE;;
  finish IMAGE.

(** The exit status of the whole run: that of [exit], else that of the last
    command. *)
Definition status_of (r : outcome unit) : Z :=
  match r with
  | Done _ => 0
  | Exited code => code
  end.

Definition events (argv0 : string) (args : list string) (w : W) : list event :=
  (scan_image argv0 args w).1.1.

Definition exit_status (argv0 : string) (args : list string) (w : W) : Z :=
  status_of (scan_image argv0 args w).1.2.

Definition final_state (argv0 : string) (args : list string) (w : W) : W :=
  (scan_image argv0 args w).2.

End script.

(** The external programs run, in order. *)
Definition commands (t : list event) : list command :=
  omap (λ ev, match ev with Run c => Some c | Echo _ _ => None end) t.

(** The texts echoed, in order. *)
Definition echoed (t : list event) : list string :=
  omap (λ ev, match ev with Echo _ text => Some text | Run _ => None end) t.

Definition is_scanner (c : command) : bool :=
  match c with Cmd program _ => bool_decide (program = "trivy") end.

Definition is_docker_pull (c : command) : bool :=
  match c with
  | Cmd program ("pull" :: _) => bool_decide (program = "docker")
  | _ => false
  end.

(** A usage message: a line that begins with [Usage:]. *)
Definition is_usage (line : string) : bool := String.prefix "Usage:" line.

Definition prints_usage (t : list event) : bool := existsb is_usage (echoed t).

(** The same machine, except that [docker pull] ends with status [st]. *)
Definition with_pull_status {W} (st : Z) (sys : system W) : system W := {|
  on_path := on_path sys;
  exec c w :=
    if is_docker_pull c
    then let '(_, out, w') := exec sys c w in (st, out, w')
    else exec sys c w;
  files := files sys
|}.

(** What is assumed of the scanner: a JSON run with [-o FILE] that ends with
    status 0 leaves a file at [FILE], and a table run removes no file. *)
Record scanner_conforms {W} (sys : system W) : Prop := {
  json_report_written : ∀ OUTPUT_FILE IMAGE w st out w',
    exec sys (trivy_json OUTPUT_FILE IMAGE) w = (st, out, w') →
    st = 0 → OUTPUT_FILE ∈ files sys w';
  table_keeps_files : ∀ IMAGE w st out w',
    exec sys (trivy_table IMAGE) w = (st, out, w') →
    files sys w ⊆ files sys w'
}.

(** A small machine to run the script on; its state is the set of files.
    The registry is out of reach (every pull fails); the JSON run ends with
    status [json_status] and writes its report when that is 0. *)
Definition demo (installed : bool) (json_status : Z) : system (gset string) := {|
  on_path _ name := installed && bool_decide (name = "trivy");
  exec c w :=
    match c with
    | Cmd program args =>
        if bool_decide (program = "docker") then
          (1, ["Error response from daemon: pull access denied"], w)
        else if bool_decide (program = "lsb_release") then (0, ["bookworm"], w)
        else
          match args !! 5%nat, args !! 7%nat with
          | Some format, Some OUTPUT_FILE =>
              if bool_decide (format = "json") then
                (json_status, [],
                 if json_status =? 0 then {[OUTPUT_FILE]} ∪ w else w)
              else (0, ["Total: 0 (HIGH: 0, CRITICAL: 0)"], w)
          | _, _ => (0, ["Total: 0 (HIGH: 0, CRITICAL: 0)"], w)
          end
    end;
  files w := w
|}.

End Scan.

(** * Properties of the runtime's [Date] *)

Module DateFacts.
Import Date.

(** *** Calendar *)

Lemma DaysInYear_cases y : DaysInYear y = 365 ∨ DaysInYear y = 366.
Proof. unfold DaysInYear. destruct (InLeapYear y); auto. Qed.

Lemma DayFromYear_1970 : DayFromYear 1970 = 0.
Proof. reflexivity. Qed.

Lemma DayFromYear_succ y : DayFromYear (y + 1) = DayFromYear y + DaysInYear y.
Proof.
  unfold DayFromYear, DaysInYear, InLeapYear.
  destruct (y mod 4 =? 0) eqn:E4; destruct (y mod 100 =? 0) eqn:E100;
    destruct (y mod 400 =? 0) eqn:E400; cbn;
    rewrite ?Z.eqb_eq, ?Z.eqb_neq in *; Z.div_mod_to_equations; lia.
Qed.

Lemma yearUp_spec fuel : ∀ y d,
  0 <= d < 365 * Z.of_nat fuel →
  DayFromYear (yearUp fuel y d).1 + (yearUp fuel y d).2 = DayFromYear y + d
  ∧ 0 <= (yearUp fuel y d).2 < DaysInYear (yearUp fuel y d).1.
Proof.
  induction fuel as [|fuel IH]; intros y d Hd; [lia|].
  cbn [yearUp]. destruct (d <? DaysInYear y) eqn:E.
  - apply Z.ltb_lt in E. cbn. lia.
  - apply Z.ltb_ge in E. pose proof (DaysInYear_cases y).
    destruct (IH (y + 1) (d - DaysInYear y)) as [Hsum Hrange]; [lia|].
    rewrite DayFromYear_succ in Hsum. split; [lia|exact Hrange].
Qed.

Lemma yearDown_spec fuel : ∀ y d,
  - 365 * Z.of_nat fuel <= d < DaysInYear y →
  DayFromYear (yearDown fuel y d).1 + (yearDown fuel y d).2 = DayFromYear y + d
  ∧ 0 <= (yearDown fuel y d).2 < DaysInYear (yearDown fuel y d).1.
Proof.
  induction fuel as [|fuel IH]; intros y d Hd.
  - cbn. lia.
  - cbn [yearDown]. destruct (0 <=? d) eqn:E.
    + apply Z.leb_le in E. cbn. lia.
    + apply Z.leb_gt in E. pose proof (DaysInYear_cases (y - 1)).
      destruct (IH (y - 1) (d + DaysInYear (y - 1))) as [Hsum Hrange]; [lia|].
      pose proof (DayFromYear_succ (y - 1)) as Hs.
      replace (y - 1 + 1) with y in Hs by lia.
      split; [lia|exact Hrange].
Qed.

Lemma yearAndDay_spec day :
  DayFromYear (yearAndDay day).1 + (yearAndDay day).2 = day
  ∧ 0 <= (yearAndDay day).2 < DaysInYear (yearAndDay day).1.
Proof.
  unfold yearAndDay. destruct (0 <=? day) eqn:E.
  - apply Z.leb_le in E.
    destruct (yearUp_spec (Z.to_nat (day / 365 + 1)) 1970 day) as [Hsum Hrange].
    { rewrite Z2Nat.id by (Z.div_mod_to_equations; lia).
      Z.div_mod_to_equations; lia. }
    rewrite DayFromYear_1970 in Hsum. split; [lia|exact Hrange].
  - apply Z.leb_gt in E.
    destruct (yearDown_spec (Z.to_nat ((- day) / 365 + 1)) 1970 day) as [Hsum Hrange].
    { rewrite Z2Nat.id by (Z.div_mod_to_equations; lia).
      change (DaysInYear 1970) with 365. Z.div_mod_to_equations; lia. }
    rewrite DayFromYear_1970 in Hsum. split; [lia|exact Hrange].
Qed.

(** A valid time value falls in a year of at most six digits. *)
Lemma year_bounds day y doy :
  - 100000000 <= day <= 100000000 →
  DayFromYear y + doy = day → 0 <= doy < DaysInYear y →
  - 999999 <= y <= 999999.
Proof.
  intros Hday Hsum Hdoy. pose proof (DaysInYear_cases y).
  unfold DayFromYear in Hsum. Z.div_mod_to_equations. lia.
Qed.

Lemma monthLengths_sum y : foldr Z.add 0 (monthLengths y) = DaysInYear y.
Proof. unfold monthLengths, DaysInYear. by destruct (InLeapYear y). Qed.

Lemma monthAndDate_spec lengths : ∀ m d,
  0 <= d < foldr Z.add 0 lengths →
  ∃ (k : nat) (len : Z),
    (monthAndDate lengths m d).1 = m + Z.of_nat k
    ∧ lengths !! k = Some len
    ∧ 0 <= (monthAndDate lengths m d).2 < len
    ∧ foldr Z.add 0 (take k lengths) + (monthAndDate lengths m d).2 = d.
Proof.
  induction lengths as [|len rest IH]; intros m d Hd; [cbn in Hd; lia|].
  cbn [monthAndDate]. destruct (d <? len) eqn:E.
  - apply Z.ltb_lt in E. exists 0%nat, len. cbn. repeat split; lia.
  - apply Z.ltb_ge in E. cbn in Hd.
    destruct (IH (m + 1) (d - len)) as (k & len' & Hm & Hlook & Hrange & Hsum); [lia|].
    exists (S k), len'. cbn. repeat split; try done; lia.
Qed.

(** *** Digits *)

Lemma digitValue_digit a : 0 <= a < 10 → digitValue (digit a) = Some a.
Proof.
  intros Ha.
  assert (a = 0 ∨ a = 1 ∨ a = 2 ∨ a = 3 ∨ a = 4 ∨ a = 5 ∨ a = 6 ∨ a = 7
          ∨ a = 8 ∨ a = 9) as Hcases by lia.
  repeat (destruct Hcases as [->|Hcases]; [reflexivity|]). by subst.
Qed.

Lemma append_cons c s rest : String c s +:+ rest = String c (s +:+ rest).
Proof. reflexivity. Qed.

Lemma digits_pad k : ∀ n acc rest,
  0 <= n →
  digits k acc (pad k n +:+ rest)
    = Some (acc * 10 ^ Z.of_nat k + n mod 10 ^ Z.of_nat k, rest).
Proof.
  induction k as [|k IH]; intros n acc rest Hn.
  - cbn. f_equal. f_equal. rewrite Z.mod_1_r. lia.
  - cbn [pad]. rewrite append_cons. cbn [digits].
    rewrite digitValue_digit by (apply Z.mod_pos_bound; lia).
    rewrite IH by done. f_equal. f_equal.
    rewrite Nat2Z.inj_succ, Z.pow_succ_r by lia.
    rewrite (Z.mul_comm 10 (10 ^ Z.of_nat k)), Z.rem_mul_r by lia. ring.
Qed.

Lemma digits_pad_small k n rest :
  0 <= n < 10 ^ Z.of_nat k →
  digits k 0 (pad k n +:+ rest) = Some (n, rest).
Proof.
  intros Hn. rewrite digits_pad by lia. by rewrite Z.mod_small.
Qed.

Lemma expect_literal c rest : expect c (String c "" +:+ rest) = Some rest.
Proof. rewrite append_cons. unfold expect. by rewrite bool_decide_eq_true_2. Qed.

(** A year written on four digits starts with a digit, so it is read as
    four digits. *)
Lemma year_four_digits a s :
  0 <= a < 10 → year (String (digit a) s) = digits 4 0 (String (digit a) s).
Proof.
  intros Ha.
  assert (a = 0 ∨ a = 1 ∨ a = 2 ∨ a = 3 ∨ a = 4 ∨ a = 5 ∨ a = 6 ∨ a = 7
          ∨ a = 8 ∨ a = 9) as Hcases by lia.
  repeat (destruct Hcases as [->|Hcases]; [reflexivity|]). by subst.
Qed.

Lemma year_yearString y rest :
  - 999999 <= y <= 999999 → year (yearString y +:+ rest) = Some (y, rest).
Proof.
  intros Hy. unfold yearString.
  destruct ((0 <=? y) && (y <=? 9999)) eqn:E.
  - apply andb_true_iff in E as [?%Z.leb_le ?%Z.leb_le].
    change (pad 4 y) with (String (digit ((y / 10 ^ Z.of_nat 3) mod 10)) (pad 3 y)).
    rewrite append_cons, year_four_digits by (apply Z.mod_pos_bound; lia).
    apply (digits_pad_small 4). change (10 ^ Z.of_nat 4) with 10000. lia.
  - destruct (0 <=? y) eqn:E0.
    + apply Z.leb_le in E0. rewrite !append_cons. cbn [year].
      change ("" +:+ pad 6 (Z.abs y)) with (pad 6 (Z.abs y)).
      rewrite (digits_pad_small 6) by (change (10 ^ Z.of_nat 6) with 1000000; lia).
      do 2 f_equal. lia.
    + apply Z.leb_gt in E0. rewrite !append_cons. cbn [year].
      change ("" +:+ pad 6 (Z.abs y)) with (pad 6 (Z.abs y)).
      rewrite (digits_pad_small 6) by (change (10 ^ Z.of_nat 6) with 1000000; lia).
      rewrite (proj2 (Z.eqb_neq _ _)) by lia. do 2 f_equal. lia.
Qed.

Lemma monthLengths_lookup y k len :
  monthLengths y !! k = Some len → (k < 12)%nat ∧ 0 < len <= 31.
Proof.
  unfold monthLengths. destruct (InLeapYear y);
    do 12 (destruct k as [|k]; [cbn; intros [= <-]; lia|]); done.
Qed.

Lemma time_within_day tod :
  0 <= tod < msPerDay →
  MakeTime (tod / msPerHour) (tod mod msPerHour / msPerMinute)
    (tod mod msPerMinute / msPerSecond) (tod mod msPerSecond) = tod
  ∧ 0 <= tod / msPerHour <= 23
  ∧ 0 <= tod mod msPerHour / msPerMinute <= 59
  ∧ 0 <= tod mod msPerMinute / msPerSecond <= 59
  ∧ 0 <= tod mod msPerSecond <= 999.
Proof.
  unfold MakeTime, msPerDay, msPerHour, msPerMinute, msPerSecond.
  intros Htod. Z.div_mod_to_equations. lia.
Qed.

(** *** Round trip *)

(** What [toISOString] prints for a valid time value, [Date.parse] reads
    back as that time value. *)
Lemma parse_toISOString t : valid t → parse (toISOString t) = Some t.
Proof.
  intros Ht. unfold toISOString.
  set (day := t / msPerDay). set (tod := t mod msPerDay).
  assert (t = day * msPerDay + tod ∧ 0 <= tod < msPerDay
          ∧ - 100000000 <= day <= 100000000) as (Hsplit & Htod & Hday).
  { subst day tod. unfold valid, maxTime, msPerDay in *.
    Z.div_mod_to_equations. lia. }
  destruct (yearAndDay_spec day) as [Hsum Hdoy].
  destruct (yearAndDay day) as [y doy]. cbn [fst snd] in Hsum, Hdoy.
  destruct (monthAndDate_spec (monthLengths y) 0 doy)
    as (k & len & Hm & Hlook & Hd & Hdsum); [by rewrite monthLengths_sum|].
  destruct (monthAndDate (monthLengths y) 0 doy) as [m d].
  cbn [fst snd] in Hm, Hd, Hdsum.
  pose proof (year_bounds day y doy Hday Hsum Hdoy) as Hy.
  destruct (monthLengths_lookup y k len Hlook) as [Hk Hlen].
  destruct (time_within_day tod Htod) as (Htime & Hh & Hmi & Hs & Hms).
  assert (MakeDate (MakeDay y (m + 1 - 1) (d + 1))
            (MakeTime (tod / msPerHour) (tod mod msPerHour / msPerMinute)
               (tod mod msPerMinute / msPerSecond) (tod mod msPerSecond)) = t)
    as Hback.
  { rewrite Htime. unfold MakeDate, MakeDay.
    replace (m + 1 - 1) with (Z.of_nat k) by lia. rewrite Nat2Z.id. lia. }
  unfold parse.
  rewrite year_yearString by done. cbn [mbind option_bind].
  rewrite expect_literal. cbn [mbind option_bind].
  rewrite (digits_pad_small 2) by (change (10 ^ Z.of_nat 2) with 100; lia).
  cbn [mbind option_bind].
  rewrite expect_literal. cbn [mbind option_bind].
  rewrite (digits_pad_small 2) by (change (10 ^ Z.of_nat 2) with 100; lia).
  cbn [mbind option_bind].
  rewrite expect_literal. cbn [mbind option_bind].
  rewrite (digits_pad_small 2) by (change (10 ^ Z.of_nat 2) with 100; lia).
  cbn [mbind option_bind].
  rewrite expect_literal. cbn [mbind option_bind].
  rewrite (digits_pad_small 2) by (change (10 ^ Z.of_nat 2) with 100; lia).
  cbn [mbind option_bind].
  rewrite expect_literal. cbn [mbind option_bind].
  rewrite (digits_pad_small 2) by (change (10 ^ Z.of_nat 2) with 100; lia).
  cbn [mbind option_bind].
  rewrite expect_literal. cbn [mbind option_bind].
  rewrite (digits_pad_small 3) by (change (10 ^ Z.of_nat 3) with 1000; lia).
  cbn [mbind option_bind].
  change (expect "Z" "Z") with (Some ""). cbn [mbind option_bind].
  rewrite bool_decide_eq_true_2 by done.
  replace (Z.to_nat (m + 1 - 1)) with k by lia. rewrite Hlook, Hback.
  replace (1 <=? m + 1) with true by lia.
  replace (1 <=? d + 1) with true by lia.
  replace (d + 1 <=? len) with true by lia.
  replace (tod / msPerHour <=? 23) with true by lia.
  replace (tod mod msPerHour / msPerMinute <=? 59) with true by lia.
  replace (tod mod msPerMinute / msPerSecond <=? 59) with true by lia.
  replace (Z.abs t <=? maxTime) with true by (unfold valid in Ht; lia).
  reflexivity.
Qed.

End DateFacts.

(** * Properties of the server *)

Module ServerFacts.
Import JS Server.

Lemma request_locale locale tz : query (request locale tz) !! "locale" = locale.
Proof.
  destruct locale as [l|], tz as [z|]; cbn; by simplify_map_eq.
Qed.

Lemma request_tz locale tz : query (request locale tz) !! "tz" = tz.
Proof.
  destruct locale as [l|], tz as [z|]; cbn; by simplify_map_eq.
Qed.

Lemma or_default_nonempty s d : s ≠ "" → or_default (Some s) d = s.
Proof. intros Hs. cbn. by rewrite bool_decide_eq_true_2. Qed.

Lemma or_default_empty d : or_default (Some "") d = d.
Proof. reflexivity. Qed.

(** The three ways a request to the time endpoint can go. *)
Lemma api_time_date_fails rt req e :
  formatDateTime rt (effective_locale req) (effective_tz req) (now rt) = inl e →
  api_time rt req =
    ([DateTimeFormat (effective_locale req) (effective_tz req) (now rt)],
     status_json_response 400
       (JObject [ ("error", JString "Invalid locale or timezone");
                  ("message", JString (message_of e)) ])).
Proof.
  intros He. unfold api_time, effective_locale, effective_tz in *.
  cbn. unfold invoke, mbind, attempt_bind. by rewrite He.
Qed.

Lemma api_time_number_fails rt req f e :
  formatDateTime rt (effective_locale req) (effective_tz req) (now rt) = inr f →
  formatNumber rt (effective_locale req)
    (getCurrencyForLocale (effective_locale req)) demoAmount = inl e →
  api_time rt req =
    ([DateTimeFormat (effective_locale req) (effective_tz req) (now rt);
      NumberFormat (effective_locale req)
        (getCurrencyForLocale (effective_locale req)) demoAmount],
     status_json_response 400
       (JObject [ ("error", JString "Invalid locale or timezone");
                  ("message", JString (message_of e)) ])).
Proof.
  intros Hf He. unfold api_time, effective_locale, effective_tz in *.
  cbn. unfold invoke, mbind, attempt_bind. rewrite Hf. cbn. by rewrite He.
Qed.

Lemma api_time_succeeds rt req f n :
  formatDateTime rt (effective_locale req) (effective_tz req) (now rt) = inr f →
  formatNumber rt (effective_locale req)
    (getCurrencyForLocale (effective_locale req)) demoAmount = inr n →
  api_time rt req =
    ([DateTimeFormat (effective_locale req) (effective_tz req) (now rt);
      NumberFormat (effective_locale req)
        (getCurrencyForLocale (effective_locale req)) demoAmount],
     json_response
       (JObject [ ("locale", JString (effective_locale req));
                  ("tz", JString (effective_tz req));
                  ("formatted", JString f);
                  ("numberExample", JString n);
                  ("timestamp", JString (Date.toISOString (now rt)));
                  ("icuDataPath", JString (or_default (NODE_ICU_DATA rt) "built-in")) ])).
Proof.
  intros Hf Hn. unfold api_time, effective_locale, effective_tz in *.
  cbn. unfold invoke, mbind, attempt_bind. rewrite Hf. cbn. by rewrite Hn.
Qed.

Lemma effective_request l z :
  l ≠ "" → z ≠ "" →
  effective_locale (request (Some l) (Some z)) = l
  ∧ effective_tz (request (Some l) (Some z)) = z.
Proof.
  intros Hl Hz. unfold effective_locale, effective_tz.
  rewrite request_locale, request_tz. split; by apply or_default_nonempty.
Qed.

Lemma effective_request_default :
  effective_locale (request None None) = "en-US"
  ∧ effective_tz (request None None) = "UTC".
Proof. split; reflexivity. Qed.

Lemma demo_Intl_conforms : Intl_conforms demo.
Proof.
  split.
  - intros l z t f Hf. cbn in Hf. repeat case_bool_decide; by simplify_eq.
  - intros l c a n Hn. cbn in Hn. destruct c; by simplify_eq.
  - intros l z t e He. cbn in He. repeat case_bool_decide; by simplify_eq.
  - intros l c a e He. cbn in He. destruct c; by simplify_eq.
Qed.

(** *** The currency helper *)

Lemma currencyMap_own locale currency :
  (locale, currency) ∈
    [ ("en-US", "USD"); ("en-GB", "GBP"); ("fr-FR", "EUR"); ("de-DE", "EUR");
      ("ja-JP", "JPY"); ("zh-CN", "CNY"); ("es-ES", "EUR"); ("it-IT", "EUR");
      ("pt-BR", "BRL"); ("ko-KR", "KRW") ] →
  getCurrencyForLocale locale = Str currency.
Proof.
  intros Hin. repeat (apply elem_of_cons in Hin as [[= -> ->]|Hin]; [by vm_compute|]).
  by apply elem_of_nil in Hin.
Qed.

Lemma currencyMap_other locale :
  locale ∉ [ "en-US"; "en-GB"; "fr-FR"; "de-DE"; "ja-JP"; "zh-CN"; "es-ES";
             "it-IT"; "pt-BR"; "ko-KR" ] →
  locale ∉ ObjectPrototype →
  getCurrencyForLocale locale = Str "USD".
Proof.
  intros Hkeys Hproto. unfold getCurrencyForLocale, get.
  assert (currencyMap !! locale = None) as ->.
  { unfold currencyMap. apply not_elem_of_list_to_map_1. exact Hkeys. }
  by rewrite bool_decide_eq_false_2.
Qed.

Lemma currencyMap_inherited locale :
  locale ∈ ObjectPrototype → getCurrencyForLocale locale = Inherited locale.
Proof.
  intros Hin. unfold ObjectPrototype in Hin.
  repeat (apply elem_of_cons in Hin as [->|Hin]; [by vm_compute|]).
  by apply elem_of_nil in Hin.
Qed.

(** The helper on every string: the mapped currency on each of the ten
    keys, USD on any other string that [Object.prototype] does not define,
    and the inherited member on those it defines. *)
Theorem getCurrencyForLocale_cases locale :
  (∀ currency,
     (locale, currency) ∈
       [ ("en-US", "USD"); ("en-GB", "GBP"); ("fr-FR", "EUR"); ("de-DE", "EUR");
         ("ja-JP", "JPY"); ("zh-CN", "CNY"); ("es-ES", "EUR"); ("it-IT", "EUR");
         ("pt-BR", "BRL"); ("ko-KR", "KRW") ] →
     getCurrencyForLocale locale = Str currency)
  ∧ (locale ∉ [ "en-US"; "en-GB"; "fr-FR"; "de-DE"; "ja-JP"; "zh-CN"; "es-ES";
                "it-IT"; "pt-BR"; "ko-KR" ] →
     locale ∉ ObjectPrototype →
     getCurrencyForLocale locale = Str "USD")
  ∧ (locale ∈ ObjectPrototype → getCurrencyForLocale locale = Inherited locale).
Proof.
  split; [|split].
  - apply currencyMap_own.
  - apply currencyMap_other.
  - apply currencyMap_inherited.
Qed.

(** C8 (as the code behaves). On a name that every object inherits from
    [Object.prototype] — here [valueOf] — the lookup [currencyMap[locale]]
    finds the inherited member, which is truthy, so [getCurrencyForLocale]
    returns that member and not the string USD; the number formatter is then
    handed a currency that is no string. *)
Theorem getCurrencyForLocale_valueOf :
  getCurrencyForLocale "valueOf" = Inherited "valueOf"
  ∧ (api_time demo (request (Some "valueOf") (Some "UTC"))).1
    = [ DateTimeFormat "valueOf" "UTC" 1705314600000;
        NumberFormat "valueOf" (Inherited "valueOf") demoAmount ]
  ∧ status (api_time demo (request (Some "valueOf") (Some "UTC"))).2 = 400.
Proof. by vm_compute. Qed.

(** *** The health endpoint *)

(** C4. The health handler always answers 200 with the JSON object
    {status, timestamp} in which status is the string ok and timestamp is an
    ISO-8601 text that parses back to the current time; there is no other
    answer. *)
Theorem api_health_ok rt req :
  Date.valid (now rt) →
  ∃ timestamp,
    api_health rt req =
      {| status := 200;
         body := JObject [ ("status", JString "ok");
                           ("timestamp", JString timestamp) ] |}
    ∧ Date.parse timestamp = Some (now rt).
Proof.
  intros Hnow. exists (Date.toISOString (now rt)).
  split; [reflexivity|]. by apply DateFacts.parse_toISOString.
Qed.

Lemma api_health_ok_witness :
  ∃ timestamp,
    api_health demo (request None None) =
      {| status := 200;
         body := JObject [ ("status", JString "ok");
                           ("timestamp", JString timestamp) ] |}
    ∧ Date.parse timestamp = Some (now demo).
Proof.
  apply (api_health_ok demo (request None None)).
  unfold Date.valid, Date.maxTime. cbn. lia.
Defined.

(** *** The time endpoint *)

(** Off the names inherited from [Object.prototype], the helper returns one
    of the seven currency codes. *)
Lemma getCurrencyForLocale_code locale :
  locale ∉ ObjectPrototype →
  ∃ code, getCurrencyForLocale locale = Str code
          ∧ code ∈ ["USD"; "GBP"; "EUR"; "JPY"; "CNY"; "BRL"; "KRW"].
Proof.
  intros Hproto. unfold getCurrencyForLocale, get, or_else.
  destruct (currencyMap !! locale) as [code|] eqn:Hlook.
  - apply elem_of_list_to_map_2 in Hlook.
    repeat (apply elem_of_cons in Hlook as [[= -> ->]|Hlook];
            [eexists; split; [reflexivity|set_solver]|]).
    by apply elem_of_nil in Hlook.
  - rewrite bool_decide_eq_false_2 by done. cbn.
    eexists; split; [reflexivity|set_solver].
Qed.


(** For a locale and time zone that the library supports, given in the
    query, the time handler answers 200 with a JSON object made of exactly
    the fields locale, tz, formatted, numberExample, timestamp and
    icuDataPath, in which formatted and numberExample are non-empty strings,
    provided the locale is not a name inherited from [Object.prototype]. *)
Theorem api_time_supported_off_prototype rt l z :
  Intl_conforms rt →
  l ≠ "" → z ≠ "" →
  l ∉ ObjectPrototype →
  supported rt l z →
  ∃ formatted numberExample,
    (api_time rt (request (Some l) (Some z))).2 =
      {| status := 200;
         body := JObject [ ("locale", JString l);
                           ("tz", JString z);
                           ("formatted", JString formatted);
                           ("numberExample", JString numberExample);
                           ("timestamp", JString (Date.toISOString (now rt)));
                           ("icuDataPath",
                             JString (or_default (NODE_ICU_DATA rt) "built-in")) ] |}
    ∧ keys (body (api_time rt (request (Some l) (Some z))).2) =
        ["locale"; "tz"; "formatted"; "numberExample"; "timestamp"; "icuDataPath"]
    ∧ formatted ≠ "" ∧ numberExample ≠ "".
Proof.
  intros Hrt Hl Hz Hproto [[f Hf] Hnumber].
  destruct (getCurrencyForLocale_code l Hproto) as (code & Hcode & Hin).
  destruct (Hnumber code Hin) as [n Hn]. rewrite <- Hcode in Hn.
  destruct (effective_request l z Hl Hz) as [El Ez].
  exists f, n.
  rewrite (api_time_succeeds rt (request (Some l) (Some z)) f n);
    rewrite ?El, ?Ez; try done.
  repeat split.
  - eapply formatted_nonempty; eauto.
  - eapply number_nonempty; eauto.
Qed.

Lemma api_time_supported_off_prototype_witness :
  ∃ formatted numberExample,
    (api_time demo (request (Some "ja-JP") (Some "Asia/Tokyo"))).2 =
      {| status := 200;
         body := JObject [ ("locale", JString "ja-JP");
                           ("tz", JString "Asia/Tokyo");
                           ("formatted", JString formatted);
                           ("numberExample", JString numberExample);
                           ("timestamp", JString (Date.toISOString (now demo)));
                           ("icuDataPath",
                             JString (or_default (NODE_ICU_DATA demo) "built-in")) ] |}
    ∧ keys (body (api_time demo (request (Some "ja-JP") (Some "Asia/Tokyo"))).2) =
        ["locale"; "tz"; "formatted"; "numberExample"; "timestamp"; "icuDataPath"]
    ∧ formatted ≠ "" ∧ numberExample ≠ "".
Proof.
  apply (api_time_supported_off_prototype demo "ja-JP" "Asia/Tokyo").
  - exact demo_Intl_conforms.
  - discriminate.
  - discriminate.
  - apply (bool_decide_eq_false_1 ("ja-JP" ∈ ObjectPrototype)). reflexivity.
  - split; [eexists; reflexivity|]. intros code _. eexists. reflexivity.
Defined.

(** C2. When the formatting routine fails on the locale or time zone of a
    request, the time handler answers 400 with the JSON object
    {error, message}, whose message is the one carried by what was thrown
    (the message of an [Error], the string form of anything else) and is not
    empty; the answer is never a success. *)
Theorem api_time_invalid rt req e :
  Intl_conforms rt →
  formatting_failure rt (effective_locale req) (effective_tz req) = Some e →
  ∃ message,
    match e with
    | ErrorInstance m => message = m
    | NotAnError as_string => message = as_string
    end
    ∧ message ≠ ""
    ∧ (api_time rt req).2 =
        {| status := 400;
           body := JObject [ ("error", JString "Invalid locale or timezone");
                             ("message", JString message) ] |}
    ∧ status (api_time rt req).2 ≠ 200.
Proof.
  intros Hrt Hfail. unfold formatting_failure in Hfail.
  assert (described e
          ∧ (api_time rt req).2 =
              status_json_response 400
                (JObject [ ("error", JString "Invalid locale or timezone");
                           ("message", JString (message_of e)) ]))
    as [Hsays Hresp].
  { destruct (formatDateTime rt _ _ _) as [e1|f] eqn:Hf.
    - injection Hfail as ->. rewrite (api_time_date_fails rt req e Hf).
      split; [|done]. eapply date_error_described; eauto.
    - destruct (formatNumber rt _ _ _) as [e2|n] eqn:Hn; [|done].
      injection Hfail as ->. rewrite (api_time_number_fails rt req f e Hf Hn).
      split; [|done]. eapply number_error_described; eauto. }
  rewrite Hresp. destruct e as [m|as_string]; cbn in Hsays |- *.
  - exists m. split; [reflexivity|]. split; [exact Hsays|]. split; [reflexivity|].
    discriminate.
  - exists as_string. split; [reflexivity|]. split; [exact Hsays|].
    split; [reflexivity|]. discriminate.
Qed.

Lemma api_time_invalid_witness :
  ∃ message,
    match ErrorInstance "Invalid time zone specified: Not/AZone" with
    | ErrorInstance m => message = m
    | NotAnError as_string => message = as_string
    end
    ∧ message ≠ ""
    ∧ (api_time demo (request (Some "en-US") (Some "Not/AZone"))).2 =
        {| status := 400;
           body := JObject [ ("error", JString "Invalid locale or timezone");
                             ("message", JString message) ] |}
    ∧ status (api_time demo (request (Some "en-US") (Some "Not/AZone"))).2 ≠ 200.
Proof.
  apply (api_time_invalid demo (request (Some "en-US") (Some "Not/AZone"))
           (ErrorInstance "Invalid time zone specified: Not/AZone"));
    [exact demo_Intl_conforms | reflexivity].
Defined.

(** A request is answered either by the error object or by the success
    object built on its effective locale and time zone; the first call is
    always the date formatter, on those two strings. *)
Lemma api_time_shape rt req :
  ∃ calls resp,
    api_time rt req =
      (DateTimeFormat (effective_locale req) (effective_tz req) (now rt) :: calls, resp)
    ∧ (∀ c, c ∈ calls → c = NumberFormat (effective_locale req)
                               (getCurrencyForLocale (effective_locale req)) demoAmount)
    ∧ (status resp = 200 →
         field "locale" (body resp) = Some (JString (effective_locale req))
         ∧ field "tz" (body resp) = Some (JString (effective_tz req))).
Proof.
  destruct (formatDateTime rt (effective_locale req) (effective_tz req) (now rt))
    as [e|f] eqn:Hf.
  { eexists _, _. split; [by apply api_time_date_fails|].
    split; [by intros c ?%elem_of_nil|]. by cbn. }
  destruct (formatNumber rt (effective_locale req)
              (getCurrencyForLocale (effective_locale req)) demoAmount)
    as [e|n] eqn:Hn.
  - eexists _, _. split; [by eapply api_time_number_fails|].
    split; [by intros c ->%list_elem_of_singleton|]. by cbn.
  - eexists _, _. split; [by eapply api_time_succeeds|].
    split; [by intros c ->%list_elem_of_singleton|]. by cbn.
Qed.


(** C5 (counterexample). A request that supplies both parameters as empty
    strings is not passed through: the formatter is called on en-US and UTC,
    and those are the values in the response. *)
Lemma api_time_empty_not_passed_through :
  api_time demo (request (Some "") (Some "")) =
    ([ DateTimeFormat "en-US" "UTC" 1705314600000;
       NumberFormat "en-US" (Str "USD") demoAmount ],
     json_response
       (JObject [ ("locale", JString "en-US");
                  ("tz", JString "UTC");
                  ("formatted", JString "[en-US] 2024-01-15T10:30:00.000Z UTC");
                  ("numberExample", JString "12,345.67 USD");
                  ("timestamp", JString "2024-01-15T10:30:00.000Z");
                  ("icuDataPath", JString "built-in") ])).
Proof. by vm_compute. Qed.

(** C5 (amended). A request that supplies non-empty locale and tz
    parameters has exactly those strings passed to the date formatter (the
    first call made), the same locale passed to the number formatter, and,
    when it succeeds, the same two strings in the locale and tz fields of the
    response. *)
Theorem api_time_pass_through rt l z :
  l ≠ "" → z ≠ "" →
  ∃ calls resp,
    api_time rt (request (Some l) (Some z)) =
      (DateTimeFormat l z (now rt) :: calls, resp)
    ∧ (∀ c, c ∈ calls → c = NumberFormat l (getCurrencyForLocale l) demoAmount)
    ∧ (status resp = 200 →
         field "locale" (body resp) = Some (JString l)
         ∧ field "tz" (body resp) = Some (JString z)).
Proof.
  intros Hl Hz.
  destruct (effective_request l z Hl Hz) as [El Ez].
  destruct (api_time_shape rt (request (Some l) (Some z))) as (calls & resp & H).
  rewrite El, Ez in H. by exists calls, resp.
Qed.

Lemma api_time_pass_through_witness :
  ∃ calls resp,
    api_time demo (request (Some "ja-JP") (Some "Asia/Tokyo")) =
      (DateTimeFormat "ja-JP" "Asia/Tokyo" (now demo) :: calls, resp)
    ∧ (∀ c, c ∈ calls →
         c = NumberFormat "ja-JP" (getCurrencyForLocale "ja-JP") demoAmount)
    ∧ (status resp = 200 →
         field "locale" (body resp) = Some (JString "ja-JP")
         ∧ field "tz" (body resp) = Some (JString "Asia/Tokyo")).
Proof.
  apply (api_time_pass_through demo "ja-JP" "Asia/Tokyo"); discriminate.
Defined.


End ServerFacts.

(** * Properties of the scan script *)

Module ScanFacts.
Import Scan.

Lemma commands_app t1 t2 : commands (t1 ++ t2) = commands t1 ++ commands t2.
Proof. apply omap_app. Qed.

Lemma echoed_app t1 t2 : echoed (t1 ++ t2) = echoed t1 ++ echoed t2.
Proof. apply omap_app. Qed.

Section blocks.
Context {W : Type} (sys : system W).

Lemma bind_done {A B} (m : sh W A) (k : A → sh W B) w t a w' t' r w'' :
  m w = (t, Done a, w') → k a w' = (t', r, w'') →
  (m ≫= k) w = (t ++ t', r, w'').
Proof. intros Hm Hk. unfold mbind, sh_bind. by rewrite Hm, Hk. Qed.

Lemma bind_exited {A B} (m : sh W A) (k : A → sh W B) w t c w' :
  m w = (t, Exited c, w') → (m ≫= k) w = (t, Exited c, w').
Proof. intros Hm. unfold mbind, sh_bind. by rewrite Hm. Qed.

Ltac sh_unfold :=
  unfold pull, simple, substitute, run, filter_through, command_v, echo,
    echo_e, exit, mbind, mret, sh_bind, sh_ret.

Lemma check_trivy_present w :
  on_path sys w "trivy" = true → check_trivy sys w = ([], Done (), w).
Proof. intros Hyes. unfold check_trivy. sh_unfold. by rewrite Hyes. Qed.

Lemma check_trivy_absent w :
  on_path sys w "trivy" = false →
  ∃ t, check_trivy sys w = (t, Exited 1, (exec sys (Cmd "lsb_release" ["-sc"]) w).2)
       ∧ commands t = [Cmd "lsb_release" ["-sc"]]
       ∧ prints_usage t = false
       ∧ RED +:+ "Error: Trivy is not installed" +:+ NC ∈ echoed t
       ∧ "Install Trivy:" ∈ echoed t.
Proof.
  intros Hno. unfold check_trivy. sh_unfold. rewrite Hno. cbn.
  destruct (exec sys (Cmd "lsb_release" ["-sc"]) w) as [[st out] w'].
  cbn. eexists. split; [reflexivity|].
  split; [reflexivity|]. split; [reflexivity|]. cbn. set_solver.
Qed.

Lemma check_image_none argv0 (w : W) :
  ∃ t, check_image argv0 [] w = (t, Exited 1, w)
       ∧ commands t = []
       ∧ prints_usage t = true
       ∧ RED +:+ "Error: No image name provided" +:+ NC ∈ echoed t
       ∧ "Usage: " +:+ argv0 +:+ " <image-name> [output-file]" ∈ echoed t.
Proof.
  unfold check_image. sh_unfold. cbn. eexists. split; [reflexivity|].
  split; [reflexivity|]. split; [reflexivity|]. cbn. set_solver.
Qed.

Lemma check_image_some argv0 image more (w : W) :
  check_image argv0 (image :: more) w = ([], Done (), w).
Proof. reflexivity. Qed.

Lemma announce_run IMAGE (w : W) :
  ∃ t, announce IMAGE w = (t, Done (), w) ∧ commands t = [].
Proof. eexists. split; reflexivity. Qed.

Lemma finish_run IMAGE (w : W) :
  ∃ t, finish IMAGE w = (t, Done (), w) ∧ commands t = [].
Proof. eexists. split; reflexivity. Qed.

Lemma or_true_zero status : or_true status = 0.
Proof. unfold or_true. destruct (status =? 0) eqn:E; lia. Qed.

(** The pull never ends the script, whatever [docker pull] and [grep]
    return. *)
Lemma pull_run IMAGE w :
  pull sys IMAGE w =
    ([ Run (Cmd "docker" ["pull"; IMAGE]);
       Run (Cmd "grep" ["-E"; "(Digest|Status|Image is up to date)"]) ],
     Done (), (exec sys (Cmd "docker" ["pull"; IMAGE]) w).2).
Proof.
  sh_unfold.
  destruct (exec sys (Cmd "docker" ["pull"; IMAGE]) w) as [[st out] w1].
  destruct (grep_pull out) as [gst hits]. cbn.
  by rewrite or_true_zero.
Qed.

Lemma ensure_local_run IMAGE w :
  ∃ t, ensure_local sys IMAGE w =
         (t, Done (), (exec sys (Cmd "docker" ["pull"; IMAGE]) w).2)
       ∧ commands t =
           [ Cmd "docker" ["pull"; IMAGE];
             Cmd "grep" ["-E"; "(Digest|Status|Image is up to date)"] ].
Proof.
  unfold ensure_local. eexists. split.
  - eapply (bind_done _ _ _ [_]); [reflexivity|].
    eapply bind_done; [apply pull_run|reflexivity].
  - reflexivity.
Qed.

(** A simple command under [set -e]. *)
Lemma simple_run c w :
  simple sys c w =
    ([Run c],
     if (exec sys c w).1.1 =? 0 then Done () else Exited (exec sys c w).1.1,
     (exec sys c w).2).
Proof.
  sh_unfold. destruct (exec sys c w) as [[st out] w']. cbn.
  by destruct (st =? 0).
Qed.

Lemma scan_table_only IMAGE w :
  ∃ t, scan sys IMAGE "" w =
         (t,
          if (exec sys (trivy_table IMAGE) w).1.1 =? 0 then Done ()
          else Exited (exec sys (trivy_table IMAGE) w).1.1,
          (exec sys (trivy_table IMAGE) w).2)
       ∧ commands t = [trivy_table IMAGE].
Proof.
  unfold scan. eexists. split.
  - eapply (bind_done _ _ _ [_]); [reflexivity|].
    eapply (bind_done _ _ _ [_]); [reflexivity|]. cbn. apply simple_run.
  - reflexivity.
Qed.

Lemma scan_json_fails IMAGE OUTPUT_FILE w :
  OUTPUT_FILE ≠ "" →
  (exec sys (trivy_json OUTPUT_FILE IMAGE) w).1.1 ≠ 0 →
  ∃ t, scan sys IMAGE OUTPUT_FILE w =
         (t, Exited (exec sys (trivy_json OUTPUT_FILE IMAGE) w).1.1,
          (exec sys (trivy_json OUTPUT_FILE IMAGE) w).2)
       ∧ commands t = [trivy_json OUTPUT_FILE IMAGE].
Proof.
  intros Hout Hst. unfold scan. rewrite bool_decide_eq_true_2 by done.
  eexists. split.
  - eapply (bind_done _ _ _ [_]); [reflexivity|].
    eapply (bind_done _ _ _ [_]); [reflexivity|].
    eapply (bind_done _ _ _ [_]); [reflexivity|].
    eapply (bind_done _ _ _ [_]); [reflexivity|].
    apply bind_exited. rewrite simple_run.
    by rewrite (proj2 (Z.eqb_neq _ _) Hst).
  - reflexivity.
Qed.

Lemma scan_json_ok IMAGE OUTPUT_FILE w :
  OUTPUT_FILE ≠ "" →
  (exec sys (trivy_json OUTPUT_FILE IMAGE) w).1.1 = 0 →
  let w1 := (exec sys (trivy_json OUTPUT_FILE IMAGE) w).2 in
  ∃ t, scan sys IMAGE OUTPUT_FILE w =
         (t,
          if (exec sys (trivy_table IMAGE) w1).1.1 =? 0 then Done ()
          else Exited (exec sys (trivy_table IMAGE) w1).1.1,
          (exec sys (trivy_table IMAGE) w1).2)
       ∧ commands t = [trivy_json OUTPUT_FILE IMAGE; trivy_table IMAGE].
Proof.
  intros Hout Hst w1. unfold scan. rewrite bool_decide_eq_true_2 by done.
  destruct ((exec sys (trivy_table IMAGE) w1).1.1 =? 0) eqn:Ht.
  - eexists. split.
    + eapply (bind_done _ _ _ [_]); [reflexivity|].
      eapply (bind_done _ _ _ [_]); [reflexivity|].
      eapply (bind_done _ _ _ [_]); [reflexivity|].
      eapply (bind_done _ _ _ [_]); [reflexivity|].
      eapply (bind_done _ _ _ [_]).
      { rewrite simple_run, Hst. reflexivity. }
      eapply (bind_done _ _ _ [_]).
      { rewrite simple_run. fold w1. rewrite Ht. reflexivity. }
      reflexivity.
    + reflexivity.
  - eexists. split.
    + eapply (bind_done _ _ _ [_]); [reflexivity|].
      eapply (bind_done _ _ _ [_]); [reflexivity|].
      eapply (bind_done _ _ _ [_]); [reflexivity|].
      eapply (bind_done _ _ _ [_]); [reflexivity|].
      eapply (bind_done _ _ _ [_]).
      { rewrite simple_run, Hst. reflexivity. }
      apply bind_exited. rewrite simple_run. fold w1. rewrite Ht. reflexivity.
    + reflexivity.
Qed.

(** *** Whole runs *)

Lemma run_without_trivy argv0 args w :
  on_path sys w "trivy" = false →
  ∃ t, scan_image sys argv0 args w =
         (t, Exited 1, (exec sys (Cmd "lsb_release" ["-sc"]) w).2)
       ∧ commands t = [Cmd "lsb_release" ["-sc"]]
       ∧ prints_usage t = false
       ∧ RED +:+ "Error: Trivy is not installed" +:+ NC ∈ echoed t
       ∧ "Install Trivy:" ∈ echoed t.
Proof.
  intros Hno. destruct (check_trivy_absent w Hno) as (t & Hrun & Hrest).
  exists t. split; [|exact Hrest].
  unfold scan_image. by apply bind_exited.
Qed.

Lemma run_without_image argv0 w :
  on_path sys w "trivy" = true →
  ∃ t, scan_image sys argv0 [] w = (t, Exited 1, w)
       ∧ commands t = []
       ∧ prints_usage t = true
       ∧ RED +:+ "Error: No image name provided" +:+ NC ∈ echoed t
       ∧ "Usage: " +:+ argv0 +:+ " <image-name> [output-file]" ∈ echoed t.
Proof.
  intros Hyes. destruct (check_image_none argv0 w) as (t & Hrun & Hrest).
  exists t. split; [|exact Hrest].
  unfold scan_image.
  eapply (bind_done _ _ _ []); [by apply check_trivy_present|].
  by apply bind_exited.
Qed.

Lemma run_with_image argv0 image more w ts r w2 :
  on_path sys w "trivy" = true →
  scan sys image (default "" (more !! 0%nat))
    (exec sys (Cmd "docker" ["pull"; image]) w).2 = (ts, r, w2) →
  commands (events sys argv0 (image :: more) w) =
    Cmd "docker" ["pull"; image]
    :: Cmd "grep" ["-E"; "(Digest|Status|Image is up to date)"]
    :: commands ts
  ∧ exit_status sys argv0 (image :: more) w = status_of r
  ∧ final_state sys argv0 (image :: more) w = w2.
Proof.
  intros Hyes Hscan.
  destruct (announce_run image w) as (ta & Ha & Hca).
  destruct (ensure_local_run image w) as (tp & Hp & Hcp).
  destruct (finish_run image w2) as (tf & Hf & Hcf).
  assert (∃ t, scan_image sys argv0 (image :: more) w = (t, r, w2)
               ∧ commands t = commands tp ++ commands ts) as (t & Hrun & Hc).
  { unfold scan_image. destruct r as [[]|code].
    - eexists. split.
      + eapply (bind_done _ _ _ []); [by apply check_trivy_present|].
        eapply (bind_done _ _ _ []); [apply check_image_some|].
        cbn. eapply bind_done; [exact Ha|].
        eapply bind_done; [exact Hp|].
        eapply bind_done; [exact Hscan|exact Hf].
      + cbn. rewrite !commands_app, Hca, Hcf. by rewrite app_nil_r.
    - eexists. split.
      + eapply (bind_done _ _ _ []); [by apply check_trivy_present|].
        eapply (bind_done _ _ _ []); [apply check_image_some|].
        cbn. eapply bind_done; [exact Ha|].
        eapply bind_done; [exact Hp|].
        apply bind_exited. exact Hscan.
      + cbn. rewrite !commands_app, Hca. done. }
  unfold events, exit_status, final_state. rewrite Hrun.
  repeat split. change (commands (t, r, w2).1.1) with (commands t).
  by rewrite Hc, Hcp.
Qed.

(** Replacing the status of [docker pull] changes nothing in a run. *)
Lemma bind_ext {A B} (m m' : sh W A) (k k' : A → sh W B) w :
  m w = m' w → (∀ a w', k a w' = k' a w') → (m ≫= k) w = (m' ≫= k') w.
Proof.
  intros Hm Hk. unfold mbind, sh_bind. rewrite Hm.
  destruct (m' w) as [[t [a|c]] w']; [|done]. by rewrite Hk.
Qed.

End blocks.

Section pull_status.
Context {W : Type} (sys : system W) (st : Z).

Lemma exec_other c w :
  is_docker_pull c = false → exec (with_pull_status st sys) c w = exec sys c w.
Proof. intros Hc. cbn. by rewrite Hc. Qed.

Lemma exec_pull IMAGE w :
  exec (with_pull_status st sys) (Cmd "docker" ["pull"; IMAGE]) w =
    (st, (exec sys (Cmd "docker" ["pull"; IMAGE]) w).1.2,
     (exec sys (Cmd "docker" ["pull"; IMAGE]) w).2).
Proof.
  cbn. by destruct (exec sys (Cmd "docker" ["pull"; IMAGE]) w) as [[? ?] ?].
Qed.

Lemma scan_image_with_pull_status argv0 args w :
  scan_image (with_pull_status st sys) argv0 args w = scan_image sys argv0 args w.
Proof.
  unfold scan_image.
  apply bind_ext; [reflexivity|]. intros _ w1.
  apply bind_ext; [reflexivity|]. intros _ w2.
  apply bind_ext; [reflexivity|]. intros _ w3.
  apply bind_ext.
  { unfold ensure_local. apply bind_ext; [reflexivity|]. intros _ w4.
    apply bind_ext; [|reflexivity].
    rewrite !pull_run. by rewrite exec_pull. }
  intros _ w4. apply bind_ext; [|reflexivity].
  unfold scan. apply bind_ext; [reflexivity|]. intros _ w5.
  apply bind_ext; [reflexivity|]. intros _ w6.
  case_bool_decide.
  - apply bind_ext; [reflexivity|]. intros _ w7.
    apply bind_ext; [reflexivity|]. intros _ w8.
    apply bind_ext; [rewrite !simple_run; rewrite !exec_other; done|].
    intros _ w9.
    apply bind_ext; [rewrite !simple_run; rewrite !exec_other; done|].
    reflexivity.
  - rewrite !simple_run. rewrite !exec_other; done.
Qed.

End pull_status.

Lemma exec_eta {W} (sys : system W) c w :
  exec sys c w = ((exec sys c w).1.1, (exec sys c w).1.2, (exec sys c w).2).
Proof. by destruct (exec sys c w) as [[? ?] ?]. Qed.

Lemma demo_scanner_conforms installed json_status :
  scanner_conforms (demo installed json_status).
Proof.
  split.
  - intros OUTPUT_FILE IMAGE w st out w' Hexec ->. cbn in Hexec.
    injection Hexec as -> _ <-. cbn. set_solver.
  - intros IMAGE w st out w' Hexec. cbn in Hexec.
    injection Hexec as _ _ <-. cbn. set_solver.
Qed.

(** C6 (counterexample). Run with no argument on a machine without trivy,
    the script exits with status 1 but prints no usage message: the check
    for trivy comes first and prints the installation instructions. *)
Lemma no_usage_without_trivy :
  exit_status (demo false 0) "./scripts/scan-image.sh" [] ∅ = 1
  ∧ prints_usage (events (demo false 0) "./scripts/scan-image.sh" [] ∅) = false
  ∧ echoed (events (demo false 0) "./scripts/scan-image.sh" [] ∅) !! 2%nat
    = Some "Install Trivy:".
Proof. by vm_compute. Qed.

(** C6 (amended). Run with no argument, or on a machine where trivy is not
    on the PATH, the script exits with status 1 and runs neither the scanner
    nor docker pull. When trivy is on the PATH (and no argument is given) it
    prints an error and the usage message; when trivy is not on the PATH it
    prints an error and the installation instructions, and no usage
    message, whatever the arguments. *)
Theorem scan_image_refuses {W} (sys : system W) argv0 args w :
  args = [] ∨ on_path sys w "trivy" = false →
  exit_status sys argv0 args w = 1
  ∧ (∀ c, c ∈ commands (events sys argv0 args w) →
       is_scanner c = false ∧ is_docker_pull c = false)
  ∧ if on_path sys w "trivy"
    then prints_usage (events sys argv0 args w) = true
         ∧ RED +:+ "Error: No image name provided" +:+ NC
             ∈ echoed (events sys argv0 args w)
         ∧ "Usage: " +:+ argv0 +:+ " <image-name> [output-file]"
             ∈ echoed (events sys argv0 args w)
    else prints_usage (events sys argv0 args w) = false
         ∧ RED +:+ "Error: Trivy is not installed" +:+ NC
             ∈ echoed (events sys argv0 args w)
         ∧ "Install Trivy:" ∈ echoed (events sys argv0 args w).
Proof.
  intros Hcase. destruct (on_path sys w "trivy") eqn:Hpath.
  - destruct Hcase as [->|?]; [|done].
    destruct (run_without_image sys argv0 w Hpath) as (t & Hrun & Hc & Hu & He).
    unfold exit_status, events. rewrite Hrun. cbn [fst snd status_of].
    split; [done|]. split; [|done].
    rewrite Hc. by intros c ?%elem_of_nil.
  - destruct (run_without_trivy sys argv0 args w Hpath) as (t & Hrun & Hc & Hu & He).
    unfold exit_status, events. rewrite Hrun. cbn [fst snd status_of].
    split; [done|]. split; [|done].
    rewrite Hc. by intros c ->%list_elem_of_singleton.
Qed.

Lemma scan_image_refuses_witness :
  exit_status (demo true 0) "./scripts/scan-image.sh" [] ∅ = 1
  ∧ (∀ c, c ∈ commands (events (demo true 0) "./scripts/scan-image.sh" [] ∅) →
       is_scanner c = false ∧ is_docker_pull c = false)
  ∧ if on_path (demo true 0) ∅ "trivy"
    then prints_usage (events (demo true 0) "./scripts/scan-image.sh" [] ∅) = true
         ∧ RED +:+ "Error: No image name provided" +:+ NC
             ∈ echoed (events (demo true 0) "./scripts/scan-image.sh" [] ∅)
         ∧ "Usage: " +:+ "./scripts/scan-image.sh" +:+ " <image-name> [output-file]"
             ∈ echoed (events (demo true 0) "./scripts/scan-image.sh" [] ∅)
    else prints_usage (events (demo true 0) "./scripts/scan-image.sh" [] ∅) = false
         ∧ RED +:+ "Error: Trivy is not installed" +:+ NC
             ∈ echoed (events (demo true 0) "./scripts/scan-image.sh" [] ∅)
         ∧ "Install Trivy:"
             ∈ echoed (events (demo true 0) "./scripts/scan-image.sh" [] ∅).
Proof.
  apply (scan_image_refuses (demo true 0) "./scripts/scan-image.sh" [] ∅).
  left. reflexivity.
Defined.

(** C7 (counterexample). Given an image and an output file, on a machine
    where the JSON run of the scanner ends with status 1, the scanner is run
    once, not twice: [set -e] ends the script with status 1 before the table
    run, and no file is left at the output path. *)
Lemma one_scan_when_json_run_fails :
  commands (events (demo true 1) "./scripts/scan-image.sh"
              ["node:20-bookworm"; "trivy-doi-node.json"] ∅)
    = [ Cmd "docker" ["pull"; "node:20-bookworm"];
        Cmd "grep" ["-E"; "(Digest|Status|Image is up to date)"];
        trivy_json "trivy-doi-node.json" "node:20-bookworm" ]
  ∧ exit_status (demo true 1) "./scripts/scan-image.sh"
      ["node:20-bookworm"; "trivy-doi-node.json"] ∅ = 1
  ∧ files (demo true 1)
      (final_state (demo true 1) "./scripts/scan-image.sh"
         ["node:20-bookworm"; "trivy-doi-node.json"] ∅) = ∅.
Proof. by vm_compute. Qed.

(** C7 (amended). With trivy on the PATH and an image given, the script
    pulls the image, then: with a non-empty output file, it runs the scanner
    in JSON format writing to that file and, if that run ends with status 0,
    runs it a second time in table format (two runs in all, and the file is
    there at the end); if the JSON run fails, the script ends with the
    status of that run after this one run. With no output file (none, or an
    empty one), it runs the scanner once, in table format. The script ends
    with the status of its last scanner run. *)
Theorem scan_image_scans {W} (sys : system W) argv0 image more w :
  scanner_conforms sys →
  on_path sys w "trivy" = true →
  let OUTPUT_FILE := default "" (more !! 0%nat) in
  let w1 := (exec sys (Cmd "docker" ["pull"; image]) w).2 in
  let json := exec sys (trivy_json OUTPUT_FILE image) w1 in
  let cmds := commands (events sys argv0 (image :: more) w) in
  let pulled :=
    [ Cmd "docker" ["pull"; image];
      Cmd "grep" ["-E"; "(Digest|Status|Image is up to date)"] ] in
  if bool_decide (OUTPUT_FILE ≠ "") then
    if bool_decide (json.1.1 = 0) then
      cmds = pulled ++ [trivy_json OUTPUT_FILE image; trivy_table image]
      ∧ exit_status sys argv0 (image :: more) w
          = (exec sys (trivy_table image) json.2).1.1
      ∧ OUTPUT_FILE ∈ files sys (final_state sys argv0 (image :: more) w)
    else
      cmds = pulled ++ [trivy_json OUTPUT_FILE image]
      ∧ exit_status sys argv0 (image :: more) w = json.1.1
  else
    cmds = pulled ++ [trivy_table image]
    ∧ exit_status sys argv0 (image :: more) w
        = (exec sys (trivy_table image) w1).1.1.
Proof.
  intros Hsys Hpath OUTPUT_FILE w1 json cmds pulled.
  assert (∀ st, status_of (if st =? 0 then Done () else Exited st) = st) as Hstatus.
  { intros st. destruct (st =? 0) eqn:E; cbn; lia. }
  case_bool_decide as Hout.
  - case_bool_decide as Hjson.
    + destruct (scan_json_ok sys image OUTPUT_FILE w1 Hout Hjson) as (ts & Hscan & Hc).
      destruct (run_with_image sys argv0 image more w _ _ _ Hpath Hscan)
        as (Hcmds & Hexit & Hfinal).
      subst cmds. rewrite Hcmds, Hc, Hexit, Hfinal, Hstatus.
      repeat split.
      eapply (table_keeps_files sys Hsys); [apply exec_eta|].
      eapply (json_report_written sys Hsys); [apply exec_eta|exact Hjson].
    + destruct (scan_json_fails sys image OUTPUT_FILE w1 Hout Hjson) as (ts & Hscan & Hc).
      destruct (run_with_image sys argv0 image more w _ _ _ Hpath Hscan)
        as (Hcmds & Hexit & Hfinal).
      subst cmds. by rewrite Hcmds, Hc, Hexit.
  - rename Hout into Hempty.
    destruct (scan_table_only sys image w1) as (ts & Hscan & Hc).
    rewrite <- Hempty in Hscan.
    destruct (run_with_image sys argv0 image more w _ _ _ Hpath Hscan)
      as (Hcmds & Hexit & Hfinal).
    subst cmds. by rewrite Hcmds, Hc, Hexit, Hstatus.
Qed.

Lemma scan_image_scans_witness :
  commands (events (demo true 0) "./scripts/scan-image.sh"
              ["node:20-bookworm"; "trivy-doi-node.json"] ∅)
    = [ Cmd "docker" ["pull"; "node:20-bookworm"];
        Cmd "grep" ["-E"; "(Digest|Status|Image is up to date)"];
        trivy_json "trivy-doi-node.json" "node:20-bookworm";
        trivy_table "node:20-bookworm" ]
  ∧ exit_status (demo true 0) "./scripts/scan-image.sh"
      ["node:20-bookworm"; "trivy-doi-node.json"] ∅ = 0
  ∧ "trivy-doi-node.json"
      ∈ files (demo true 0)
          (final_state (demo true 0) "./scripts/scan-image.sh"
             ["node:20-bookworm"; "trivy-doi-node.json"] ∅).
Proof.
  exact (scan_image_scans (demo true 0) "./scripts/scan-image.sh"
           "node:20-bookworm" ["trivy-doi-node.json"] ∅
           (demo_scanner_conforms true 0) eq_refl).
Defined.

(** C10. Whatever status [docker pull] ends with, the script goes on: the
    run is the same as with any other status of the pull, and after the pull
    the scanner is run on the requested image. *)
Theorem pull_failure_ignored {W} (sys : system W) st argv0 image more w :
  on_path sys w "trivy" = true →
  (exec (with_pull_status st sys) (Cmd "docker" ["pull"; image]) w).1.1 = st
  ∧ scan_image (with_pull_status st sys) argv0 (image :: more) w
      = scan_image sys argv0 (image :: more) w
  ∧ ∃ scanner rest,
      commands (events (with_pull_status st sys) argv0 (image :: more) w)
        = Cmd "docker" ["pull"; image]
          :: Cmd "grep" ["-E"; "(Digest|Status|Image is up to date)"]
          :: scanner :: rest
      ∧ (scanner = trivy_json (default "" (more !! 0%nat)) image
         ∨ scanner = trivy_table image).
Proof.
  intros Hpath. split; [by rewrite exec_pull|].
  split; [apply scan_image_with_pull_status|].
  unfold events. rewrite scan_image_with_pull_status. fold (events sys argv0 (image :: more) w).
  set (OUTPUT_FILE := default "" (more !! 0%nat)).
  set (w1 := (exec sys (Cmd "docker" ["pull"; image]) w).2).
  destruct (decide (OUTPUT_FILE = "")) as [Hempty|Hout].
  - destruct (scan_table_only sys image w1) as (ts & Hscan & Hc).
    rewrite <- Hempty in Hscan.
    destruct (run_with_image sys argv0 image more w _ _ _ Hpath Hscan) as (Hcmds & _).
    rewrite Hcmds, Hc. eauto.
  - destruct (decide ((exec sys (trivy_json OUTPUT_FILE image) w1).1.1 = 0))
      as [Hjson|Hjson].
    + destruct (scan_json_ok sys image OUTPUT_FILE w1 Hout Hjson) as (ts & Hscan & Hc).
      destruct (run_with_image sys argv0 image more w _ _ _ Hpath Hscan) as (Hcmds & _).
      rewrite Hcmds, Hc. eauto.
    + destruct (scan_json_fails sys image OUTPUT_FILE w1 Hout Hjson) as (ts & Hscan & Hc).
      destruct (run_with_image sys argv0 image more w _ _ _ Hpath Hscan) as (Hcmds & _).
      rewrite Hcmds, Hc. eauto.
Qed.

Lemma pull_failure_ignored_witness :
  (exec (with_pull_status 1 (demo true 0)) (Cmd "docker" ["pull"; "node:20-bookworm"]) ∅).1.1 = 1
  ∧ scan_image (with_pull_status 1 (demo true 0)) "./scripts/scan-image.sh"
      ["node:20-bookworm"] ∅
      = scan_image (demo true 0) "./scripts/scan-image.sh" ["node:20-bookworm"] ∅
  ∧ ∃ scanner rest,
      commands (events (with_pull_status 1 (demo true 0)) "./scripts/scan-image.sh"
                  ["node:20-bookworm"] ∅)
        = Cmd "docker" ["pull"; "node:20-bookworm"]
          :: Cmd "grep" ["-E"; "(Digest|Status|Image is up to date)"]
          :: scanner :: rest
      ∧ (scanner = trivy_json (default "" ([] !! 0%nat)) "node:20-bookworm"
         ∨ scanner = trivy_table "node:20-bookworm").
Proof.
  apply (pull_failure_ignored (demo true 0) 1 "./scripts/scan-image.sh"
           "node:20-bookworm" [] ∅).
  reflexivity.
Defined.

End ScanFacts.

(** * Further properties of the server *)

Module ServerExtras.
Import JS Server ServerFacts.

(** The time handler answers 200 or 400 and nothing else, and it answers 200
    exactly when both formatting calls succeed on the locale and time zone
    the request is served with. *)
Theorem api_time_status rt req :
  (status (api_time rt req).2 = 200 ∨ status (api_time rt req).2 = 400)
  ∧ (status (api_time rt req).2 = 200
     ↔ formatting_failure rt (effective_locale req) (effective_tz req) = None).
Proof.
  unfold formatting_failure.
  destruct (formatDateTime rt (effective_locale req) (effective_tz req) (now rt))
    as [e|f] eqn:Hf.
  { rewrite (api_time_date_fails rt req e Hf). cbn. split; [by right|]. by split. }
  destruct (formatNumber rt (effective_locale req)
              (getCurrencyForLocale (effective_locale req)) demoAmount)
    as [e|n] eqn:Hn.
  - rewrite (api_time_number_fails rt req f e Hf Hn). cbn.
    split; [by right|]. by split.
  - rewrite (api_time_succeeds rt req f n Hf Hn). cbn.
    split; [by left|]. by split.
Qed.

(** The number formatter is called only after the date formatter has
    succeeded: when the date formatter throws, it is the only call made. *)
Theorem api_time_calls rt req :
  (api_time rt req).1 =
    DateTimeFormat (effective_locale req) (effective_tz req) (now rt)
    :: match formatDateTime rt (effective_locale req) (effective_tz req) (now rt) with
       | inl _ => []
       | inr _ => [ NumberFormat (effective_locale req)
                      (getCurrencyForLocale (effective_locale req)) demoAmount ]
       end.
Proof.
  destruct (formatDateTime rt (effective_locale req) (effective_tz req) (now rt))
    as [e|f] eqn:Hf.
  { by rewrite (api_time_date_fails rt req e Hf). }
  destruct (formatNumber rt (effective_locale req)
              (getCurrencyForLocale (effective_locale req)) demoAmount)
    as [e|n] eqn:Hn.
  - by rewrite (api_time_number_fails rt req f e Hf Hn).
  - by rewrite (api_time_succeeds rt req f n Hf Hn).
Qed.

(** Query parameters other than locale and tz have no effect on the time
    handler. *)
Theorem api_time_other_parameters rt (q : gmap string string) k v :
  k ≠ "locale" → k ≠ "tz" →
  api_time rt {| query := <[k := v]> q |} = api_time rt {| query := q |}
  ∧ api_time rt {| query := delete k q |} = api_time rt {| query := q |}.
Proof.
  intros Hl Hz. unfold api_time. cbn.
  by rewrite !lookup_insert_ne, !lookup_delete_ne.
Qed.

Lemma api_time_other_parameters_witness :
  api_time demo {| query := <["callback" := "f"]> {["locale" := "ja-JP"]} |}
    = api_time demo {| query := {["locale" := "ja-JP"]} |}
  ∧ api_time demo {| query := delete "callback" {["locale" := "ja-JP"]} |}
    = api_time demo {| query := {["locale" := "ja-JP"]} |}.
Proof.
  apply (api_time_other_parameters demo {["locale" := "ja-JP"]} "callback" "f");
    discriminate.
Defined.

(** Each parameter is defaulted on its own: a request without locale is
    served as with locale=en-US and the tz it gives, a request without tz as
    with tz=UTC and the locale it gives. *)
Theorem api_time_single_default rt l z :
  api_time rt (request None (Some z)) = api_time rt (request (Some "en-US") (Some z))
  ∧ api_time rt (request (Some l) None) = api_time rt (request (Some l) (Some "UTC")).
Proof.
  unfold api_time. rewrite !request_locale, !request_tz. done.
Qed.

(** For a locale that is one of the ten keys of the currency map, the number
    formatter is called with that locale and its mapped currency code, once
    the date formatter has succeeded. *)
Theorem api_time_currency rt l tz currency f :
  (l, currency) ∈
    [ ("en-US", "USD"); ("en-GB", "GBP"); ("fr-FR", "EUR"); ("de-DE", "EUR");
      ("ja-JP", "JPY"); ("zh-CN", "CNY"); ("es-ES", "EUR"); ("it-IT", "EUR");
      ("pt-BR", "BRL"); ("ko-KR", "KRW") ] →
  formatDateTime rt l (or_default tz "UTC") (now rt) = inr f →
  (api_time rt (request (Some l) tz)).1 =
    [ DateTimeFormat l (or_default tz "UTC") (now rt);
      NumberFormat l (Str currency) demoAmount ].
Proof.
  intros Hin Hf.
  assert (l ≠ "") as Hl.
  { intros ->. repeat (apply elem_of_cons in Hin as [[=]|Hin]).
    by apply elem_of_nil in Hin. }
  rewrite api_time_calls. unfold effective_locale, effective_tz.
  rewrite request_locale, request_tz, (or_default_nonempty l) by done.
  by rewrite Hf, (currencyMap_own l currency Hin).
Qed.

Lemma api_time_currency_witness :
  (api_time demo (request (Some "ja-JP") (Some "Asia/Tokyo"))).1 =
    [ DateTimeFormat "ja-JP" (or_default (Some "Asia/Tokyo") "UTC") (now demo);
      NumberFormat "ja-JP" (Str "JPY") demoAmount ].
Proof.
  apply (api_time_currency demo "ja-JP" (Some "Asia/Tokyo") "JPY"
           "[ja-JP] 2024-01-15T10:30:00.000Z Asia/Tokyo").
  - set_solver.
  - reflexivity.
Defined.

(** What the helper returns is never falsy, so the number formatter is never
    handed [undefined] or an empty currency; and when it is a string, it is
    one of the seven currency codes of the map. *)
Theorem getCurrencyForLocale_truthy locale :
  truthy (getCurrencyForLocale locale) = true
  ∧ ∀ code, getCurrencyForLocale locale = Str code →
      code ∈ ["USD"; "GBP"; "EUR"; "JPY"; "CNY"; "BRL"; "KRW"].
Proof.
  unfold getCurrencyForLocale, get, or_else.
  destruct (currencyMap !! locale) as [code|] eqn:Hlook.
  - apply elem_of_list_to_map_2 in Hlook.
    repeat (apply elem_of_cons in Hlook as [[= -> ->]|Hlook];
            [cbn; split; [done|intros ? [= <-]; set_solver]|]).
    by apply elem_of_nil in Hlook.
  - case_bool_decide; cbn; split; try done; intros ? [= <-]; set_solver.
Qed.

(** In a successful response the timestamp is the instant that was given to
    the date formatter: it parses back to the time value of that call. *)
Theorem api_time_timestamp rt req :
  Date.valid (now rt) →
  status (api_time rt req).2 = 200 →
  ∃ timestamp l z calls,
    field "timestamp" (body (api_time rt req).2) = Some (JString timestamp)
    ∧ (api_time rt req).1 = DateTimeFormat l z (now rt) :: calls
    ∧ Date.parse timestamp = Some (now rt).
Proof.
  intros Hnow Hok.
  destruct (formatDateTime rt (effective_locale req) (effective_tz req) (now rt))
    as [e|f] eqn:Hf.
  { by rewrite (api_time_date_fails rt req e Hf) in Hok. }
  destruct (formatNumber rt (effective_locale req)
              (getCurrencyForLocale (effective_locale req)) demoAmount)
    as [e|n] eqn:Hn.
  { by rewrite (api_time_number_fails rt req f e Hf Hn) in Hok. }
  rewrite (api_time_succeeds rt req f n Hf Hn).
  eexists _, _, _, _. split; [reflexivity|]. split; [reflexivity|].
  by apply DateFacts.parse_toISOString.
Qed.

Lemma api_time_timestamp_witness :
  ∃ timestamp l z calls,
    field "timestamp" (body (api_time demo (request None None)).2)
      = Some (JString timestamp)
    ∧ (api_time demo (request None None)).1 = DateTimeFormat l z (now demo) :: calls
    ∧ Date.parse timestamp = Some (now demo).
Proof.
  apply (api_time_timestamp demo (request None None)).
  - unfold Date.valid, Date.maxTime. cbn. lia.
  - reflexivity.
Defined.

(** The ICU data path logged at startup is the one every successful response
    reports: the value of NODE_ICU_DATA when it is set and not empty,
    built-in otherwise. *)
Theorem icu_data_path rt version req :
  ∃ path,
    listening rt version !! 1%nat = Some ("ICU data path: " +:+ path)
    ∧ (status (api_time rt req).2 = 200 →
         field "icuDataPath" (body (api_time rt req).2) = Some (JString path))
    ∧ path = match NODE_ICU_DATA rt with
             | Some p => if bool_decide (p = "") then "built-in" else p
             | None => "built-in"
             end.
Proof.
  exists (or_default (NODE_ICU_DATA rt) "built-in"). split; [reflexivity|]. split.
  - intros Hok.
    destruct (formatDateTime rt (effective_locale req) (effective_tz req) (now rt))
      as [e|f] eqn:Hf.
    { by rewrite (api_time_date_fails rt req e Hf) in Hok. }
    destruct (formatNumber rt (effective_locale req)
                (getCurrencyForLocale (effective_locale req)) demoAmount)
      as [e|n] eqn:Hn.
    { by rewrite (api_time_number_fails rt req f e Hf Hn) in Hok. }
    by rewrite (api_time_succeeds rt req f n Hf Hn).
  - unfold or_default. destruct (NODE_ICU_DATA rt) as [p|]; [|done].
    by repeat case_bool_decide.
Qed.

End ServerExtras.

(** * Further properties of the scan script *)

Module ScanExtras.
Import Scan ScanFacts.

Section runs.
Context {W : Type} (sys : system W).

(** The scanning block, spelled out: what it echoes and runs, how it ends and
    in which state, from the statuses of the scanner runs. *)
Lemma scan_run IMAGE OUTPUT_FILE w :
  scan sys IMAGE OUTPUT_FILE w =
    let head :=
      [ Echo true (YELLOW +:+ "Running Trivy scan (HIGH and CRITICAL vulnerabilities)..." +:+ NC);
        Echo false "" ] in
    if bool_decide (OUTPUT_FILE ≠ "") then
      let saving :=
        [ Echo true (BLUE +:+ "Saving results to: " +:+ OUTPUT_FILE +:+ NC);
          Echo false "";
          Run (trivy_json OUTPUT_FILE IMAGE) ] in
      let j := exec sys (trivy_json OUTPUT_FILE IMAGE) w in
      if j.1.1 =? 0 then
        let t := exec sys (trivy_table IMAGE) j.2 in
        if t.1.1 =? 0 then
          (head ++ saving ++
             [ Run (trivy_table IMAGE); Echo false "";
               Echo true (GREEN +:+ "Results saved to: " +:+ OUTPUT_FILE +:+ NC) ],
           Done (), t.2)
        else (head ++ saving ++ [Run (trivy_table IMAGE)], Exited t.1.1, t.2)
      else (head ++ saving, Exited j.1.1, j.2)
    else
      let t := exec sys (trivy_table IMAGE) w in
      (head ++ [Run (trivy_table IMAGE)],
       if t.1.1 =? 0 then Done () else Exited t.1.1, t.2).
Proof.
  unfold scan, simple, run, echo, echo_e, exit, mbind, mret, sh_bind, sh_ret.
  cbn zeta. case_bool_decide as Hout.
  - destruct (exec sys (trivy_json OUTPUT_FILE IMAGE) w) as [[st out] w1].
    cbn. destruct (st =? 0); [|reflexivity].
    destruct (exec sys (trivy_table IMAGE) w1) as [[st' out'] w2].
    cbn. by destruct (st' =? 0).
  - destruct (exec sys (trivy_table IMAGE) w) as [[st out] w1].
    cbn. by destruct (st =? 0).
Qed.

Lemma ensure_local_events IMAGE w :
  ensure_local sys IMAGE w =
    ([ Echo true (YELLOW +:+ "Ensuring image is available locally..." +:+ NC);
       Run (Cmd "docker" ["pull"; IMAGE]);
       Run (Cmd "grep" ["-E"; "(Digest|Status|Image is up to date)"]);
       Echo false "" ],
     Done (), (exec sys (Cmd "docker" ["pull"; IMAGE]) w).2).
Proof.
  unfold ensure_local.
  eapply (bind_done _ _ _ [_] _ _ [_; _; _]); [reflexivity|].
  eapply (bind_done _ _ _ [_; _] _ _ [_]); [apply pull_run|reflexivity].
Qed.

(** A run that gets past the two checks: the events of the four blocks one
    after the other, the last one only when the scan did not end the
    script. *)
Lemma run_events argv0 image more w :
  on_path sys w "trivy" = true →
  let s := scan sys image (default "" (more !! 0%nat))
             (exec sys (Cmd "docker" ["pull"; image]) w).2 in
  scan_image sys argv0 (image :: more) w =
    ((announce image w).1.1
       ++ (ensure_local sys image w).1.1
       ++ s.1.1
       ++ match s.1.2 with
          | Done _ => (finish image s.2).1.1
          | Exited _ => []
          end,
     s.1.2, s.2).
Proof.
  intros Hpath s. subst s.
  destruct (scan sys image (default "" (more !! 0%nat))
              (exec sys (Cmd "docker" ["pull"; image]) w).2)
    as [[ts r] w2] eqn:Hs.
  cbn [fst snd].
  set (ta := (announce image w).1.1).
  assert (announce image w = (ta, Done (), w)) as Ha by reflexivity.
  assert (finish image w2 = ((finish image w2).1.1, Done (), w2)) as Hf
    by reflexivity.
  rewrite ensure_local_events. cbn [fst snd].
  set (tp := [_; _; _; _]) in *.
  pose proof (ensure_local_events image w) as Hp. fold tp in Hp.
  set (tf := (finish image w2).1.1) in *.
  clearbody ta tp tf. unfold scan_image.
  change (default "" ((image :: more) !! 0%nat)) with image.
  change (default "" ((image :: more) !! 1%nat)) with (default "" (more !! 0%nat)).
  eapply (bind_done _ _ _ []); [by apply check_trivy_present|].
  eapply (bind_done _ _ _ []); [apply check_image_some|].
  cbn zeta. eapply bind_done; [exact Ha|].
  eapply bind_done; [exact Hp|].
  destruct r as [[]|code].
  - eapply bind_done; [exact Hs|exact Hf].
  - rewrite app_nil_r. by apply bind_exited.
Qed.

(** Only the first two arguments count, and an empty second argument is the
    same as none. *)
Theorem scan_image_arguments argv0 image out rest w :
  scan_image sys argv0 (image :: out :: rest) w = scan_image sys argv0 [image; out] w
  ∧ scan_image sys argv0 [image; ""] w = scan_image sys argv0 [image] w.
Proof. split; reflexivity. Qed.

(** A run that is refused: status 1, and what it echoes. *)
Lemma refused_without_trivy argv0 args w :
  on_path sys w "trivy" = false →
  exit_status sys argv0 args w = 1
  ∧ commands (events sys argv0 args w) = [Cmd "lsb_release" ["-sc"]]
  ∧ Forall (λ line, String.prefix GREEN line = false)
      (echoed (events sys argv0 args w)).
Proof.
  intros Hno. unfold exit_status, events, scan_image, check_trivy.
  unfold substitute, run, command_v, echo, echo_e, exit, mbind, mret, sh_bind, sh_ret.
  rewrite Hno. cbn.
  destruct (exec sys (Cmd "lsb_release" ["-sc"]) w) as [[st out] w'].
  cbn. repeat split. repeat constructor.
Qed.

Lemma refused_without_image argv0 w :
  on_path sys w "trivy" = true →
  exit_status sys argv0 [] w = 1
  ∧ commands (events sys argv0 [] w) = []
  ∧ Forall (λ line, String.prefix GREEN line = false)
      (echoed (events sys argv0 [] w)).
Proof.
  intros Hyes. unfold exit_status, events, scan_image.
  erewrite (bind_done _ _ _ []); [|by apply check_trivy_present|reflexivity].
  cbn. repeat split. repeat constructor.
Qed.

Lemma green_line text : String.prefix GREEN (GREEN +:+ text) = true.
Proof. unfold GREEN. cbn. by destruct text. Qed.

(** The script runs nothing but these five commands, each at most once and in
    this order: it never scans an image other than its first argument, runs
    the scanner at most twice and [docker pull] at most once. *)
Theorem scan_image_commands argv0 args w :
  commands (events sys argv0 args w) `sublist_of`
    [ Cmd "lsb_release" ["-sc"];
      Cmd "docker" ["pull"; default "" (args !! 0%nat)];
      Cmd "grep" ["-E"; "(Digest|Status|Image is up to date)"];
      trivy_json (default "" (args !! 1%nat)) (default "" (args !! 0%nat));
      trivy_table (default "" (args !! 0%nat)) ].
Proof.
  destruct (on_path sys w "trivy") eqn:Hpath.
  2: { destruct (refused_without_trivy argv0 args w Hpath) as (_ & -> & _).
       apply sublist_skip, sublist_nil_l. }
  destruct args as [|image more].
  { destruct (refused_without_image argv0 w Hpath) as (_ & -> & _).
    apply sublist_nil_l. }
  change (default "" ((image :: more) !! 0%nat)) with image.
  change (default "" ((image :: more) !! 1%nat)) with (default "" (more !! 0%nat)).
  set (OUTPUT_FILE := default "" (more !! 0%nat)).
  set (w1 := (exec sys (Cmd "docker" ["pull"; image]) w).2).
  apply sublist_cons.
  destruct (decide (OUTPUT_FILE = "")) as [Hempty|Hout].
  - destruct (scan_table_only sys image w1) as (ts & Hscan & Hc).
    rewrite <- Hempty in Hscan.
    destruct (run_with_image sys argv0 image more w _ _ _ Hpath Hscan) as (-> & _).
    rewrite Hc. do 2 apply sublist_skip.
    apply sublist_cons, sublist_skip, sublist_nil_l.
  - destruct (decide ((exec sys (trivy_json OUTPUT_FILE image) w1).1.1 = 0))
      as [Hjson|Hjson].
    + destruct (scan_json_ok sys image OUTPUT_FILE w1 Hout Hjson) as (ts & Hscan & Hc).
      destruct (run_with_image sys argv0 image more w _ _ _ Hpath Hscan) as (-> & _).
      rewrite Hc. done.
    + destruct (scan_json_fails sys image OUTPUT_FILE w1 Hout Hjson) as (ts & Hscan & Hc).
      destruct (run_with_image sys argv0 image more w _ _ _ Hpath Hscan) as (-> & _).
      rewrite Hc. do 3 apply sublist_skip. apply sublist_nil_l.
Qed.

Ltac no_such_line H :=
  cbn in H;
  repeat (apply elem_of_cons in H as [H|H]; [discriminate H|]);
  by apply elem_of_nil in H.

Ltac cases_of_scan :=
  rewrite scan_run; cbn zeta;
  repeat first
    [ case_bool_decide
    | match goal with
      | |- context [if ?st =? 0 then _ else _] => destruct (st =? 0) eqn:?
      end ];
  cbn [fst snd status_of].

(** The line [Scan complete!] is echoed exactly when the script ends with
    status 0. *)
Theorem scan_complete_iff argv0 args w :
  exit_status sys argv0 args w = 0
  ↔ GREEN +:+ "Scan complete!" +:+ NC ∈ echoed (events sys argv0 args w).
Proof.
  destruct (on_path sys w "trivy") eqn:Hpath.
  2: { destruct (refused_without_trivy argv0 args w Hpath) as (-> & _ & Hlines).
       split; [done|]. intros Hin.
       rewrite Forall_forall in Hlines. apply Hlines in Hin.
       by rewrite green_line in Hin. }
  destruct args as [|image more].
  { destruct (refused_without_image argv0 w Hpath) as (-> & _ & Hlines).
    split; [done|]. intros Hin.
    rewrite Forall_forall in Hlines. apply Hlines in Hin.
    by rewrite green_line in Hin. }
  unfold exit_status, events. rewrite (run_events argv0 image more w Hpath).
  cbn [fst snd]. rewrite ensure_local_events. cbn [fst snd].
  cases_of_scan; (split; [intros Hst|intros Hin]); try lia.
  all: try (no_such_line Hin).
  all: try (rewrite !echoed_app, !elem_of_app; do 3 right; cbn;
            do 2 apply list_elem_of_further; apply list_elem_of_here).
  all: done.
Qed.

(** The script echoes [Results saved to: FILE] only when it was given a
    non-empty output file and both scanner runs ended with status 0; the
    file is then there, and the script ends with status 0. *)
Theorem results_saved_truthful argv0 args w :
  scanner_conforms sys →
  GREEN +:+ "Results saved to: " +:+ default "" (args !! 1%nat) +:+ NC
    ∈ echoed (events sys argv0 args w) →
  default "" (args !! 1%nat) ≠ ""
  ∧ exit_status sys argv0 args w = 0
  ∧ default "" (args !! 1%nat) ∈ files sys (final_state sys argv0 args w).
Proof.
  intros Hsys Hin.
  destruct (on_path sys w "trivy") eqn:Hpath.
  2: { destruct (refused_without_trivy argv0 args w Hpath) as (_ & _ & Hlines).
       rewrite Forall_forall in Hlines. apply Hlines in Hin.
       by rewrite green_line in Hin. }
  destruct args as [|image more].
  { destruct (refused_without_image argv0 w Hpath) as (_ & _ & Hlines).
    rewrite Forall_forall in Hlines. apply Hlines in Hin.
    by rewrite green_line in Hin. }
  revert Hin. unfold exit_status, final_state, events.
  rewrite (run_events argv0 image more w Hpath).
  cbn [fst snd]. rewrite ensure_local_events. cbn [fst snd].
  change (default "" ((image :: more) !! 1%nat)) with (default "" (more !! 0%nat)).
  cases_of_scan; intros Hin.
  all: try (no_such_line Hin).
  split; [done|]. split; [done|].
  eapply (table_keeps_files sys Hsys); [apply exec_eta|].
  eapply (json_report_written sys Hsys); [apply exec_eta|lia].
Qed.

End runs.

Lemma results_saved_truthful_witness :
  default "" (["node:20-bookworm"; "trivy-doi-node.json"] !! 1%nat) ≠ ""
  ∧ exit_status (demo true 0) "./scripts/scan-image.sh"
      ["node:20-bookworm"; "trivy-doi-node.json"] ∅ = 0
  ∧ default "" (["node:20-bookworm"; "trivy-doi-node.json"] !! 1%nat)
      ∈ files (demo true 0)
          (final_state (demo true 0) "./scripts/scan-image.sh"
             ["node:20-bookworm"; "trivy-doi-node.json"] ∅).
Proof.
  apply (results_saved_truthful (demo true 0) "./scripts/scan-image.sh"
           ["node:20-bookworm"; "trivy-doi-node.json"] ∅).
  - apply demo_scanner_conforms.
  - vm_compute. do 11 apply list_elem_of_further. apply list_elem_of_here.
Defined.

End ScanExtras.
